(** * SNR_VIS: the radiometric link budget notebook

    A shallow embedding of [SNR_VIS.ipynb], the notebook that estimates the
    signal-to-noise ratio of one pixel of an electro-optical sensor, and the
    properties its specification states about it.

    Number model.  The notebook computes with IEEE binary64 numbers (Python
    [float], [numpy.float64]).  Here every finite number is a real number
    of [R] and every operation is the exact one: rounding, overflow and
    underflow are idealised away.  What is kept of the Python semantics is
    its control flow on the reals:
    - a Python division raises [ZeroDivisionError] on a zero divisor;
    - [np.sqrt] of a negative number is [nan] (a warning, not an exception),
      and a numpy division by zero is [inf] or [nan]; both are the
      non-finite value [None] of [np_float], which every later numpy
      operation propagates.
    Not kept: the OverflowError that [**] raises when its result leaves
    the binary64 range, the silent overflow to [inf] and underflow to [0.0]
    of the other operations, and rounding.  A theorem that says a run
    completes, or that compares two results, therefore carries the
    magnitudes it is meant for as a hypothesis ([moderate]) and a margin
    where rounding could decide.  Module [B64] evaluates the signal chain
    in binary64 itself, for the inputs where rounding is the question. *)

From Stdlib Require Import Floats.
From Stdlib Require Import Reals Lra Lia ZArith Psatz.

Local Open Scope R_scope.

(** ** Python and numpy primitives *)

Module Py.

Inductive exn : Set := ZeroDivisionError.

Inductive result (A : Type) : Type :=
| Ok (a : A)
| Raise (e : exn).

Arguments Ok {A} a.
Arguments Raise {A} e.

Definition bind {A B : Type} (m : result A) (k : A -> result B) : result B :=
  match m with
  | Ok a => k a
  | Raise e => Raise e
  end.

(** [x / y] on Python floats (and ints, which true division converts). *)
Definition truediv (x y : R) : result R :=
  if Req_dec_T y 0 then Raise ZeroDivisionError else Ok (x / y).

(** A numpy scalar: a finite real, or [None] for [nan] and [inf]. *)
Definition np_float : Type := option R.

Definition np_sqrt (x : R) : np_float :=
  if Rlt_dec x 0 then None else Some (sqrt x).

(** A numpy operation that is total on finite numbers, applied to a numpy
    scalar: non-finite in, non-finite out. *)
Definition np_map (g : R -> R) (x : np_float) : np_float :=
  match x with
  | Some v => Some (g v)
  | None => None
  end.

Definition np_bind (x : np_float) (g : R -> np_float) : np_float :=
  match x with
  | Some v => g v
  | None => None
  end.

(** [x / y] with a numpy divisor: no exception, a non-finite quotient. *)
Definition np_truediv (x : R) (y : np_float) : np_float :=
  np_bind y (fun d => if Req_dec_T d 0 then None else Some (x / d)).

(** [np.rad2deg]. *)
Definition rad2deg (x : R) : R := x * 180 / PI.

End Py.

Import Py.

Notation "x <- e ;; k" := (bind e (fun x => k))
  (at level 61, e at next level, right associativity).

(** ** The notebook *)

Module SNR_VIS.

(** The variables of the parameter input cell.  [Range] is the notebook's
    variable [R] (the name of the type of reals here). *)
Record Params : Type := mkParams {
  Range : R;
  lambda_c : R;
  D_ap : R;
  D_obs : R;
  n_x : Z;
  n_y : Z;
  D : R;
  f : R;
  BW : R;
  L_typ : R;
  eta : R;
  t : R;
  n_evmax : R;
  DR : R;
  L_abs : R;
  L_scat : R;
  L_opt : R;
  L_crop : R
}.

(** The values the notebook assigns (its "Default Value (RGB)" column). *)
Definition defaults : Params := {|
  Range := 400;
  lambda_c := 625;
  D_ap := 11.4;
  D_obs := 0;
  n_x := 2200;
  n_y := 3208;
  D := 6;
  f := 16;
  BW := 300;
  L_typ := 20.45;
  eta := 0.35;
  t := 1.3e-4;
  n_evmax := 12000;
  DR := 55;
  L_abs := 0.11;
  L_scat := 0.0580;
  L_opt := 0.2;
  L_crop := 0.6
|}.

(** The [*=] lines under "# Unit conversion". *)
Definition unit_conversion (p : Params) : Params := {|
  Range := Range p * 1e3;
  lambda_c := lambda_c p * 1e-9;
  D_ap := D_ap p * 1e-3;
  D_obs := D_obs p * 1e-3;
  n_x := n_x p;
  n_y := n_y p;
  D := D p * 1e-6;
  f := f p * 1e-3;
  BW := BW p * 1e-9;
  L_typ := L_typ p * 1e6;
  eta := eta p;
  t := t p;
  n_evmax := n_evmax p;
  DR := DR p;
  L_abs := L_abs p;
  L_scat := L_scat p;
  L_opt := L_opt p;
  L_crop := L_crop p
|}.

(** Helper functions.  [10 ** y] with a positive base is [Rpower]. *)
Definition db2pow (db : R) : R := Rpower 10 (db / 10).

Definition db2volt (db : R) : R := Rpower 10 (db / 20).

(** [10 * np.log10(power)]; [nan] or [-inf] off the positive numbers. *)
Definition pow2db (power : R) : np_float :=
  if Rle_dec power 0 then None else Some (10 * (ln power / ln 10)).

(** Constants. *)
Definition R_e : R := 6378.137 * 1e3.

Record Geometry : Type := mkGeometry {
  A_ap : R;
  A_obs : R;
  A_det : R;
  iFOV_px : R;
  pix_smear : np_float
}.

(** The cell "Additional parameters and constants". *)
Definition geometry (p : Params) : result Geometry :=
  let A_ap := PI * (D_ap p ^ 2) / 4 in
  let A_obs := PI * (D_obs p ^ 2) / 4 in
  let A_det := D p ^ 2 * IZR (n_x p) * IZR (n_y p) in
  q <- truediv (0.5 * D p) (f p) ;;
  let iFOV_px := rad2deg (2 * atan q) in
  v <- truediv 398600000.5 (Range p + R_e) ;;
  let pix_smear :=
    np_map (fun s => s * 1000) (np_map (fun s => t p * s) (np_sqrt v)) in
  Ok {| A_ap := A_ap; A_obs := A_obs; A_det := A_det;
        iFOV_px := iFOV_px; pix_smear := pix_smear |}.

Record Signal : Type := mkSignal {
  P : R;
  phi_det : R;
  phi : R;
  n_ev : R;
  saturation : R
}.

Record Noise : Type := mkNoise {
  n_sh : np_float;
  n_d : R;
  n_q : R;
  n_fpn : R;
  n_r : R
}.

Section Constants.

(** [scipy.constants.h] and [scipy.constants.c]. *)
Variables h c : R.

(** The cell "Signal". *)
Definition signal (p : Params) (g : Geometry) : result Signal :=
  a <- truediv (A_ap g - A_obs g) (f p ^ 2) ;;
  let P := A_det g * a * BW p * L_typ p
           * (1 - L_abs p) * (1 - L_scat p) * (1 - L_opt p) * (1 - L_crop p) in
  phi_det <- truediv (lambda_c p * P) (c * h) ;;
  phi <- truediv phi_det (IZR (n_x p * n_y p)) ;;
  let n_ev := phi * eta p * t p in
  saturation <- truediv n_ev (n_evmax p) ;;
  Ok {| P := P; phi_det := phi_det; phi := phi; n_ev := n_ev;
        saturation := saturation |}.

(** The cell "Noise". *)
Definition noise (p : Params) (s : Signal) : result Noise :=
  let n_sh := np_sqrt (n_ev s) in
  let n_d := 100 * t p in
  let n_q := 5 in
  let n_fpn := 0.0005 * n_ev s in
  n_r <- truediv (n_evmax p) (db2volt (DR p)) ;;
  Ok {| n_sh := n_sh; n_d := n_d; n_q := n_q; n_fpn := n_fpn; n_r := n_r |}.

(** The sum under the square root of the cell "SNR Calculation". *)
Definition noise_sum (n : Noise) : np_float :=
  np_map (fun sh => sh ^ 2 + n_d n ^ 2 + n_q n ^ 2 + n_fpn n ^ 2
                    + (n_r n ^ 2) ^ 2) (n_sh n).

(** The cell "SNR Calculation". *)
Definition snr_cell (s : Signal) (n : Noise) : np_float :=
  np_truediv (n_ev s) (np_bind (noise_sum n) np_sqrt).

(** The namespace after the last cell. *)
Record Output : Type := mkOutput {
  si : Params;
  geo : Geometry;
  sig : Signal;
  noi : Noise;
  snr : np_float
}.

(** The notebook run from top to bottom on the inputs [p]. *)
Definition run (p : Params) : result Output :=
  let p := unit_conversion p in
  g <- geometry p ;;
  s <- signal p g ;;
  n <- noise p s ;;
  Ok {| si := p; geo := g; sig := s; noi := n; snr := snr_cell s n |}.

End Constants.

End SNR_VIS.

Import SNR_VIS.

(** ** Inputs: updates, the reference constants, the valid domain *)

Definition set_t (p : Params) (v : R) : Params :=
  mkParams (Range p) (lambda_c p) (D_ap p) (D_obs p) (n_x p) (n_y p) (D p)
    (f p) (BW p) (L_typ p) (eta p) v (n_evmax p) (DR p)
    (L_abs p) (L_scat p) (L_opt p) (L_crop p).

Definition set_DR (p : Params) (v : R) : Params :=
  mkParams (Range p) (lambda_c p) (D_ap p) (D_obs p) (n_x p) (n_y p) (D p)
    (f p) (BW p) (L_typ p) (eta p) (t p) (n_evmax p) v
    (L_abs p) (L_scat p) (L_opt p) (L_crop p).

Definition set_D_obs (p : Params) (v : R) : Params :=
  mkParams (Range p) (lambda_c p) (D_ap p) v (n_x p) (n_y p) (D p)
    (f p) (BW p) (L_typ p) (eta p) (t p) (n_evmax p) (DR p)
    (L_abs p) (L_scat p) (L_opt p) (L_crop p).

Definition set_eta (p : Params) (v : R) : Params :=
  mkParams (Range p) (lambda_c p) (D_ap p) (D_obs p) (n_x p) (n_y p) (D p)
    (f p) (BW p) (L_typ p) v (t p) (n_evmax p) (DR p)
    (L_abs p) (L_scat p) (L_opt p) (L_crop p).

Definition set_L_typ (p : Params) (v : R) : Params :=
  mkParams (Range p) (lambda_c p) (D_ap p) (D_obs p) (n_x p) (n_y p) (D p)
    (f p) (BW p) v (eta p) (t p) (n_evmax p) (DR p)
    (L_abs p) (L_scat p) (L_opt p) (L_crop p).

Definition set_pixels (p : Params) (nx ny : Z) : Params :=
  mkParams (Range p) (lambda_c p) (D_ap p) (D_obs p) nx ny (D p)
    (f p) (BW p) (L_typ p) (eta p) (t p) (n_evmax p) (DR p)
    (L_abs p) (L_scat p) (L_opt p) (L_crop p).

(** The four loss fractions. *)
Inductive Loss : Set := Absorption | Scatter | Optical | Crop.

Definition loss (l : Loss) (p : Params) : R :=
  match l with
  | Absorption => L_abs p
  | Scatter => L_scat p
  | Optical => L_opt p
  | Crop => L_crop p
  end.

Definition set_loss (l : Loss) (p : Params) (v : R) : Params :=
  mkParams (Range p) (lambda_c p) (D_ap p) (D_obs p) (n_x p) (n_y p) (D p)
    (f p) (BW p) (L_typ p) (eta p) (t p) (n_evmax p) (DR p)
    (match l with Absorption => v | _ => L_abs p end)
    (match l with Scatter => v | _ => L_scat p end)
    (match l with Optical => v | _ => L_opt p end)
    (match l with Crop => v | _ => L_crop p end).

(** The values of [scipy.constants.h] (J s) and [scipy.constants.c] (m/s),
    both exact in the SI of 2019. *)
Definition scipy_h : R := 6.62607015e-34.
Definition scipy_c : R := 299792458.

(** The inputs the specification calls valid (its validation rules, on the
    raw inputs).  The notebook checks none of them; the spectral radiance
    [L_typ] is not among them. *)
Record valid (p : Params) : Prop := mkValid {
  valid_Range : 0 < Range p;
  valid_lambda_c : 0 < lambda_c p;
  valid_D_ap : 0 < D_ap p;
  valid_D_obs : 0 <= D_obs p < D_ap p;
  valid_n_x : (0 < n_x p)%Z;
  valid_n_y : (0 < n_y p)%Z;
  valid_D : 0 < D p;
  valid_f : 0 < f p;
  valid_BW : 0 < BW p;
  valid_eta : 0 < eta p <= 1;
  valid_t : 0 < t p;
  valid_n_evmax : 0 < n_evmax p;
  valid_DR : 0 < DR p;
  valid_L_abs : 0 <= L_abs p < 1;
  valid_L_scat : 0 <= L_scat p < 1;
  valid_L_opt : 0 <= L_opt p < 1;
  valid_L_crop : 0 <= L_crop p < 1
}.

(** A numpy scalar is finite and satisfies [Q]. *)
Definition np_holds (Q : R -> Prop) (x : np_float) : Prop :=
  match x with
  | Some v => Q v
  | None => False
  end.

(** The noise sum as the specification writes it, on finite terms. *)
Definition spec_noise_sum (sh d q fpn r : R) : R :=
  sh ^ 2 + d ^ 2 + q ^ 2 + fpn ^ 2 + r ^ 4.

(** The electron count in closed form, on SI inputs: the signal chain with
    the pixel counts cancelled. *)
Definition n_ev_closed (h c : R) (p : Params) : R :=
  lambda_c p
  * (D p ^ 2 * ((PI * D_ap p ^ 2 / 4 - PI * D_obs p ^ 2 / 4) / f p ^ 2)
     * BW p * L_typ p
     * (1 - L_abs p) * (1 - L_scat p) * (1 - L_opt p) * (1 - L_crop p))
  / (c * h) * eta p * t p.

(** The factor of [n_ev_closed] that the losses, the quantum efficiency and
    the exposure time multiply. *)
Definition n_ev_base (h c : R) (p : Params) : R :=
  lambda_c p * D p ^ 2 * (PI * (D_ap p ^ 2 - D_obs p ^ 2) / 4) / f p ^ 2
  * BW p * L_typ p / (c * h).

(** The reference configuration looking at a scene of zero radiance: every
    validation rule of the specification holds of it. *)
Definition dark_scene : Params := set_L_typ defaults 0.

(** [x] is within one percent of the reference value [ref]. *)
Definition within_1pct (x ref : R) : Prop := Rabs (x - ref) <= 0.01 * Rabs ref.

Definition set_f (p : Params) (v : R) : Params :=
  mkParams (Range p) (lambda_c p) (D_ap p) (D_obs p) (n_x p) (n_y p) (D p)
    v (BW p) (L_typ p) (eta p) (t p) (n_evmax p) (DR p)
    (L_abs p) (L_scat p) (L_opt p) (L_crop p).

Definition set_Range (p : Params) (v : R) : Params :=
  mkParams v (lambda_c p) (D_ap p) (D_obs p) (n_x p) (n_y p) (D p)
    (f p) (BW p) (L_typ p) (eta p) (t p) (n_evmax p) (DR p)
    (L_abs p) (L_scat p) (L_opt p) (L_crop p).

(** The sum under the square root of the SNR for a finite shot noise, in
    the exposure time [t], the electron count [n] and the readout noise
    [r]: [sqrt n ^ 2] is [n]. *)
Definition noise_var (t n r : R) : R :=
  n + (100 * t) ^ 2 + 5 ^ 2 + (0.0005 * n) ^ 2 + (r ^ 2) ^ 2.

(** Inputs of moderate magnitude: the validation rules of the
    specification, with every magnitude far inside the binary64 range, an
    obscuration that leaves a thousandth of a thousandth of the aperture
    diameter, and a radiance, a quantum efficiency and transmittances that
    are not negligible.  On them no [**] overflows and no product
    underflows. *)
Record moderate (p : Params) : Prop := mkModerate {
  mod_Range : 1e-3 <= Range p <= 1e9;
  mod_lambda_c : 1e-3 <= lambda_c p <= 1e6;
  mod_D_ap : 1e-3 <= D_ap p <= 1e6;
  mod_D_obs : 0 <= D_obs p <= 0.999999 * D_ap p;
  mod_n_x : (1 <= n_x p <= 1000000)%Z;
  mod_n_y : (1 <= n_y p <= 1000000)%Z;
  mod_D : 1e-3 <= D p <= 1e6;
  mod_f : 1e-3 <= f p <= 1e6;
  mod_BW : 1e-3 <= BW p <= 1e6;
  mod_L_typ : 1e-6 <= L_typ p <= 1e6;
  mod_eta : 1e-6 <= eta p <= 1;
  mod_t : 1e-9 <= t p <= 1e3;
  mod_n_evmax : 1 <= n_evmax p <= 1e9;
  mod_DR : 1e-3 <= DR p <= 200;
  mod_L_abs : 0 <= L_abs p <= 0.999999;
  mod_L_scat : 0 <= L_scat p <= 0.999999;
  mod_L_opt : 0 <= L_opt p <= 0.999999;
  mod_L_crop : 0 <= L_crop p <= 0.999999
}.

(** [x] is [y] to within one part in 1e9. *)
Definition rel_close (x y : R) : Prop := Rabs (x - y) <= 1e-9 * Rabs y.

(** The Planck constant as scipy has had it (6.626070040e-34 before the SI
    of 2019, 6.62607015e-34 since). *)
Definition planck_range (h : R) : Prop := 6.626e-34 <= h <= 6.6261e-34.

(** SI inputs of the geometry cell whose squares and whose detector area
    are far inside the binary64 range: on them no [**] of lines 141 to 143
    overflows. *)
Record geometry_range (p : Params) : Prop := mkGeometryRange {
  gr_D_ap : -1e100 <= D_ap p <= 1e100;
  gr_D_obs : -1e100 <= D_obs p <= 1e100;
  gr_D : -1e100 <= D p <= 1e100;
  gr_n_x : (Z.abs (n_x p) <= 10 ^ 18)%Z;
  gr_n_y : (Z.abs (n_y p) <= 10 ^ 18)%Z
}.

(** The variables of the geometry cell; [None] is a name not assigned. *)
Record GeometryVars : Type := mkGeometryVars {
  v_A_ap : option R;
  v_A_obs : option R;
  v_A_det : option R;
  v_iFOV_px : option R;
  v_pix_smear : option np_float
}.

(** The geometry cell line by line (lines 141 to 145): the variables
    assigned when it stops and the exception that stopped it, if any. *)
Definition geometry_lines (p : Params) : GeometryVars * option exn :=
  let a := PI * (D_ap p ^ 2) / 4 in
  let b := PI * (D_obs p ^ 2) / 4 in
  let d := D p ^ 2 * IZR (n_x p) * IZR (n_y p) in
  match truediv (0.5 * D p) (f p) with
  | Raise e => (mkGeometryVars (Some a) (Some b) (Some d) None None, Some e)
  | Ok q =>
      let i := rad2deg (2 * atan q) in
      match truediv 398600000.5 (Range p + R_e) with
      | Raise e =>
          (mkGeometryVars (Some a) (Some b) (Some d) (Some i) None, Some e)
      | Ok v =>
          let s :=
            np_map (fun s => s * 1000) (np_map (fun s => t p * s) (np_sqrt v))
          in
          (mkGeometryVars (Some a) (Some b) (Some d) (Some i) (Some s), None)
      end
  end.

(** ** The signal chain in binary64 *)

Module B64.

Local Open Scope float_scope.

(** Decimal literals are read as Python reads them: the nearest binary64
    number. *)
Local Set Warnings "-inexact-float".

Inductive exn : Set := ZeroDivisionError | OverflowError.

Inductive result (A : Type) : Type :=
| Ok (a : A)
| Raise (e : exn).

Arguments Ok {A} a.
Arguments Raise {A} e.

Definition bind {A B : Type} (m : result A) (k : A -> result B) : result B :=
  match m with
  | Ok a => k a
  | Raise e => Raise e
  end.

Local Notation "x <-- e ;; k" := (bind e (fun x => k))
  (at level 61, e at next level, right associativity).

(** [x / y] on Python floats. *)
Definition truediv (x y : float) : result float :=
  if y =? 0 then Raise ZeroDivisionError else Ok (x / y).

(** [x ** 2] on a Python float: C's [pow (x, 2.0)], taken to be the
    rounded product, and OverflowError when a finite [x] gives [inf]. *)
Definition pow2 (x : float) : result float :=
  let y := x * x in
  if andb (is_infinity y) (is_finite x) then Raise OverflowError else Ok y.

(** A Python int converted to a float, rounded to nearest even;
    OverflowError beyond the binary64 range. *)
Definition of_int (z : Z) : result float :=
  let x := SF2Prim (binary_normalize prec emax z 0 false) in
  if is_infinity x then Raise OverflowError else Ok x.

(** The inputs, each numeric one as the binary64 number it is converted to
    at its first use; the pixel counts stay Python ints. *)
Record Params : Type := mkParams {
  Range : float;
  lambda_c : float;
  D_ap : float;
  D_obs : float;
  n_x : Z;
  n_y : Z;
  D : float;
  f : float;
  BW : float;
  L_typ : float;
  eta : float;
  t : float;
  n_evmax : float;
  DR : float;
  L_abs : float;
  L_scat : float;
  L_opt : float;
  L_crop : float
}.

Definition defaults : Params :=
  mkParams 400 625 11.4 0 2200 3208 6 16 300 20.45 0.35 1.3e-4 12000 55
    0.11 0.0580 0.2 0.6.

Definition set_pixels (p : Params) (nx ny : Z) : Params :=
  mkParams (Range p) (lambda_c p) (D_ap p) (D_obs p) nx ny (D p)
    (f p) (BW p) (L_typ p) (eta p) (t p) (n_evmax p) (DR p)
    (L_abs p) (L_scat p) (L_opt p) (L_crop p).

Definition unit_conversion (p : Params) : Params :=
  mkParams (Range p * 1e3) (lambda_c p * 1e-9) (D_ap p * 1e-3)
    (D_obs p * 1e-3) (n_x p) (n_y p) (D p * 1e-6) (f p * 1e-3)
    (BW p * 1e-9) (L_typ p * 1e6) (eta p) (t p) (n_evmax p) (DR p)
    (L_abs p) (L_scat p) (L_opt p) (L_crop p).

(** [np.pi], [scipy.constants.h] and [scipy.constants.c]. *)
Definition np_pi : float := 0x1.921fb54442d18p+1.
Definition h : float := 6.62607015e-34.
Definition c : float := 299792458.

Definition R_e : float := 6378.137 * 1e3.

(** The notebook from the unit conversion to [n_ev] (lines 74 to 167),
    every Python float operation in its order.  Of line 144 and line 145
    only the divisions are kept, which can raise; their [np.arctan],
    [np.rad2deg] and [np.sqrt] cannot, and [n_ev] does not read them. *)
Definition n_ev_run (raw : Params) : result float :=
  let p := unit_conversion raw in
  a <-- pow2 (D_ap p) ;;
  let A_ap := np_pi * a / 4 in
  b <-- pow2 (D_obs p) ;;
  let A_obs := np_pi * b / 4 in
  d <-- pow2 (D p) ;;
  nx <-- of_int (n_x p) ;;
  ny <-- of_int (n_y p) ;;
  let A_det := d * nx * ny in
  _ <-- truediv (0.5 * D p) (f p) ;;
  _ <-- truediv 398600000.5 (Range p + R_e) ;;
  f2 <-- pow2 (f p) ;;
  q <-- truediv (A_ap - A_obs) f2 ;;
  let P := A_det * q * BW p * L_typ p
           * (1 - L_abs p) * (1 - L_scat p) * (1 - L_opt p) * (1 - L_crop p) in
  phi_det <-- truediv (lambda_c p * P) (c * h) ;;
  n <-- of_int (n_x p * n_y p) ;;
  phi <-- truediv phi_det n ;;
  Ok (phi * eta p * t p).

End B64.

(** The Python divisors of a run on the raw inputs [p]: the focal length,
    the orbit radius, [c * h], the pixel count and the well capacity. *)
Definition divisors_nonzero (h c : R) (p : Params) : Prop :=
  f p <> 0 /\ Range p * 1e3 + R_e <> 0 /\ c * h <> 0 /\
  (n_x p * n_y p)%Z <> 0%Z /\ n_evmax p <> 0.

(** ** The primitives *)

Lemma truediv_ok (x y : R) : y <> 0 -> truediv x y = Ok (x / y).
Proof.
  intros Hy. unfold truediv.
  destruct (Req_dec_T y 0) as [E | _]; [contradiction | reflexivity].
Qed.

Lemma truediv_inv (x y q : R) : truediv x y = Ok q -> y <> 0 /\ q = x / y.
Proof.
  unfold truediv. destruct (Req_dec_T y 0) as [E | N]; intros H.
  - discriminate H.
  - injection H as <-. split; [exact N | reflexivity].
Qed.

Lemma truediv_zero (x : R) : truediv x 0 = Raise ZeroDivisionError.
Proof.
  unfold truediv.
  destruct (Req_dec_T 0 0) as [_ | N]; [reflexivity | now elim N].
Qed.

Lemma bind_inv {A B : Type} (m : result A) (k : A -> result B) (b : B) :
  bind m k = Ok b -> exists a, m = Ok a /\ k a = Ok b.
Proof.
  destruct m as [a | e]; simpl; intros H.
  - exists a. split; [reflexivity | exact H].
  - discriminate H.
Qed.

Lemma np_sqrt_nonneg (x : R) : 0 <= x -> np_sqrt x = Some (sqrt x).
Proof.
  intros Hx. unfold np_sqrt.
  destruct (Rlt_dec x 0) as [L | _]; [lra | reflexivity].
Qed.

Lemma np_sqrt_neg (x : R) : x < 0 -> np_sqrt x = None.
Proof.
  intros Hx. unfold np_sqrt.
  destruct (Rlt_dec x 0) as [_ | N]; [reflexivity | contradiction].
Qed.

Lemma np_truediv_ok (x d : R) : d <> 0 -> np_truediv x (Some d) = Some (x / d).
Proof.
  intros Hd. unfold np_truediv; simpl.
  destruct (Req_dec_T d 0) as [E | _]; [contradiction | reflexivity].
Qed.

Lemma db2volt_pos (db : R) : 0 < db2volt db.
Proof. unfold db2volt, Rpower. apply exp_pos. Qed.

Lemma db2volt_lt (x y : R) : x < y -> db2volt x < db2volt y.
Proof. intros Hxy. unfold db2volt. apply Rpower_lt; lra. Qed.

Lemma R_e_value : R_e = 6378137.
Proof. unfold R_e. lra. Qed.

(** [10 ** (55 / 20)], the fourth root of [10 ^ 11]. *)
Lemma db2volt_55 : 562.34 < db2volt 55 < 562.35.
Proof.
  unfold db2volt. set (x := Rpower 10 (55 / 20)).
  assert (Hx : 0 < x) by apply exp_pos.
  assert (H4 : x ^ 4 = 10 ^ 11).
  { rewrite <- (Rpower_pow 4 x Hx). unfold x. rewrite Rpower_mult.
    replace (55 / 20 * INR 4) with (INR 11) by (simpl; lra).
    apply Rpower_pow. lra. }
  split.
  - destruct (Rlt_le_dec 562.34 x) as [L | G]; [exact L | exfalso].
    assert (x ^ 4 <= 562.34 ^ 4) by (apply pow_incr; lra). lra.
  - destruct (Rlt_le_dec x 562.35) as [L | G]; [exact L | exfalso].
    assert (562.35 ^ 4 <= x ^ 4) by (apply pow_incr; lra). lra.
Qed.

(** The readout noise of the reference scenario. *)
Lemma n_r_defaults : 21.339 <= 12000 / db2volt 55 <= 21.3395.
Proof.
  pose proof db2volt_55 as [Hl Hu].
  assert (H1 : / 562.35 <= / db2volt 55) by (apply Rinv_le_contravar; lra).
  assert (H2 : / db2volt 55 <= / 562.34) by (apply Rinv_le_contravar; lra).
  unfold Rdiv. lra.
Qed.

(** ** The cells, one at a time *)

Ltac bind_inv H x Hx :=
  apply bind_inv in H; destruct H as [x [Hx H]].

Lemma geometry_inv (p : Params) (g : Geometry) :
  geometry p = Ok g ->
  f p <> 0 /\ Range p + R_e <> 0 /\
  A_ap g = PI * (D_ap p ^ 2) / 4 /\
  A_obs g = PI * (D_obs p ^ 2) / 4 /\
  A_det g = D p ^ 2 * IZR (n_x p) * IZR (n_y p) /\
  iFOV_px g = rad2deg (2 * atan (0.5 * D p / f p)) /\
  pix_smear g =
    np_map (fun s => s * 1000)
      (np_map (fun s => t p * s) (np_sqrt (398600000.5 / (Range p + R_e)))).
Proof.
  unfold geometry. intros H.
  bind_inv H q Hq. bind_inv H v Hv.
  apply truediv_inv in Hq, Hv. destruct Hq as [Hf ->], Hv as [Hr ->].
  injection H as <-. simpl. repeat split; assumption.
Qed.

Lemma geometry_ok (p : Params) :
  f p <> 0 -> Range p + R_e <> 0 -> exists g, geometry p = Ok g.
Proof.
  intros Hf Hr. unfold geometry.
  rewrite (truediv_ok _ _ Hf). simpl. rewrite (truediv_ok _ _ Hr). simpl.
  eexists. reflexivity.
Qed.

Lemma signal_inv (h c : R) (p : Params) (g : Geometry) (s : Signal) :
  signal h c p g = Ok s ->
  f p <> 0 /\ c * h <> 0 /\ IZR (n_x p * n_y p) <> 0 /\ n_evmax p <> 0 /\
  P s = A_det g * ((A_ap g - A_obs g) / f p ^ 2) * BW p * L_typ p
        * (1 - L_abs p) * (1 - L_scat p) * (1 - L_opt p) * (1 - L_crop p) /\
  phi_det s = lambda_c p * P s / (c * h) /\
  phi s = phi_det s / IZR (n_x p * n_y p) /\
  n_ev s = phi s * eta p * t p /\
  saturation s = n_ev s / n_evmax p.
Proof.
  unfold signal. intros H.
  bind_inv H a Ha. bind_inv H pd Hpd. bind_inv H ph Hph. bind_inv H sa Hsa.
  apply truediv_inv in Ha, Hpd, Hph, Hsa.
  destruct Ha as [Hf ->], Hpd as [Hch ->], Hph as [Hn ->], Hsa as [Hm ->].
  injection H as <-. simpl.
  assert (Hf' : f p <> 0) by (intros E; apply Hf; rewrite E; ring).
  repeat split; assumption.
Qed.

Lemma signal_ok (h c : R) (p : Params) (g : Geometry) :
  f p <> 0 -> c * h <> 0 -> IZR (n_x p * n_y p) <> 0 -> n_evmax p <> 0 ->
  exists s, signal h c p g = Ok s.
Proof.
  intros Hf Hch Hn Hm. unfold signal.
  assert (Hf2 : f p ^ 2 <> 0) by (apply pow_nonzero; exact Hf).
  rewrite (truediv_ok _ _ Hf2). simpl. rewrite (truediv_ok _ _ Hch). simpl.
  rewrite (truediv_ok _ _ Hn). simpl. rewrite (truediv_ok _ _ Hm). simpl.
  eexists. reflexivity.
Qed.

Lemma noise_eq (p : Params) (s : Signal) :
  noise p s =
  Ok {| n_sh := np_sqrt (n_ev s); n_d := 100 * t p; n_q := 5;
        n_fpn := 0.0005 * n_ev s; n_r := n_evmax p / db2volt (DR p) |}.
Proof.
  unfold noise. rewrite truediv_ok; [reflexivity | ].
  apply Rgt_not_eq, db2volt_pos.
Qed.

(** A finite shot noise squares to a sum of at least [n_q ^ 2 = 25]. *)
Lemma noise_sum_ge_25 (p : Params) (s : Signal) (n : Noise) (sh : R) :
  noise p s = Ok n -> n_sh n = Some sh ->
  noise_sum n = Some (spec_noise_sum sh (n_d n) (n_q n) (n_fpn n) (n_r n)) /\
  25 <= spec_noise_sum sh (n_d n) (n_q n) (n_fpn n) (n_r n).
Proof.
  rewrite noise_eq. intros H Hsh. injection H as <-. simpl in *.
  unfold noise_sum, spec_noise_sum. simpl. rewrite Hsh. simpl. split.
  - f_equal. ring.
  - set (a := 100 * t p). set (b := 0.0005 * n_ev s).
    set (r := n_evmax p / db2volt (DR p)).
    assert (0 <= sh ^ 2) by apply pow2_ge_0.
    assert (0 <= a ^ 2) by apply pow2_ge_0.
    assert (0 <= b ^ 2) by apply pow2_ge_0.
    assert (0 <= (r ^ 2) ^ 2) by apply pow2_ge_0.
    replace (r ^ 4) with ((r ^ 2) ^ 2) by ring. lra.
Qed.

Lemma snr_cell_finite (p : Params) (s : Signal) (n : Noise) (sh : R) :
  noise p s = Ok n -> n_sh n = Some sh ->
  snr_cell s n =
  Some (n_ev s / sqrt (spec_noise_sum sh (n_d n) (n_q n) (n_fpn n) (n_r n))).
Proof.
  intros Hn Hsh. destruct (noise_sum_ge_25 p s n sh Hn Hsh) as [Hsum Hge].
  unfold snr_cell. rewrite Hsum. simpl.
  rewrite np_sqrt_nonneg by lra. apply np_truediv_ok.
  apply Rgt_not_eq, sqrt_lt_R0. lra.
Qed.

Lemma snr_cell_nan (s : Signal) (n : Noise) :
  n_sh n = None -> noise_sum n = None /\ snr_cell s n = None.
Proof.
  intros Hsh. unfold snr_cell, noise_sum. rewrite Hsh. simpl.
  split; reflexivity.
Qed.

(** ** The whole run *)

Lemma run_inv (h c : R) (p : Params) (out : Output) :
  run h c p = Ok out ->
  si out = unit_conversion p /\
  geometry (si out) = Ok (geo out) /\
  signal h c (si out) (geo out) = Ok (sig out) /\
  noise (si out) (sig out) = Ok (noi out) /\
  snr out = snr_cell (sig out) (noi out).
Proof.
  unfold run. intros H.
  bind_inv H g Hg. bind_inv H s Hs. bind_inv H n Hn.
  injection H as <-. simpl. repeat split; assumption.
Qed.

Lemma run_ok (h c : R) (p : Params) :
  divisors_nonzero h c p -> exists out, run h c p = Ok out.
Proof.
  intros (Hf & Hr & Hch & Hn & Hm). unfold run.
  assert (Hf' : f (unit_conversion p) <> 0) by (simpl; lra).
  destruct (geometry_ok (unit_conversion p) Hf' Hr) as [g Hg].
  assert (Hn' : IZR (n_x (unit_conversion p) * n_y (unit_conversion p)) <> 0).
  { simpl. intros E. apply Hn. apply eq_IZR. exact E. }
  destruct (signal_ok h c (unit_conversion p) g Hf' Hch Hn' Hm) as [s Hs].
  rewrite Hg. simpl. rewrite Hs. simpl. rewrite noise_eq. simpl.
  eexists. reflexivity.
Qed.

Lemma run_ok_inv (h c : R) (p : Params) (out : Output) :
  run h c p = Ok out -> divisors_nonzero h c p.
Proof.
  intros H. apply run_inv in H. destruct H as (Hsi & Hg & Hs & _).
  rewrite Hsi in Hg, Hs.
  apply geometry_inv in Hg. destruct Hg as (Hf & Hr & _).
  apply signal_inv in Hs. destruct Hs as (_ & Hch & Hn & Hm & _).
  simpl in *. repeat split; try assumption.
  - lra.
  - intros E. apply Hn. rewrite E. reflexivity.
Qed.

Lemma defaults_divisors_nonzero : divisors_nonzero scipy_h scipy_c defaults.
Proof.
  unfold divisors_nonzero, scipy_h, scipy_c, R_e. simpl.
  repeat split; try lra. discriminate.
Qed.

Lemma run_defaults_ok : exists out, run scipy_h scipy_c defaults = Ok out.
Proof. apply run_ok, defaults_divisors_nonzero. Qed.

(** ** Unit conversion *)

(** C3: the downstream cells of a run see each raw input multiplied by its
    one fixed factor (range 1e3, wavelength 1e-9, the two diameters 1e-3,
    pixel pitch 1e-6, focal length 1e-3, bandwidth 1e-9, radiance 1e6) and
    every other input unchanged. *)
Theorem C3_unit_conversion (h c : R) (p : Params) (out : Output) :
  run h c p = Ok out ->
  (Range (si out) = Range p * 1e3 /\
   lambda_c (si out) = lambda_c p * 1e-9 /\
   D_ap (si out) = D_ap p * 1e-3 /\
   D_obs (si out) = D_obs p * 1e-3 /\
   D (si out) = D p * 1e-6 /\
   f (si out) = f p * 1e-3 /\
   BW (si out) = BW p * 1e-9 /\
   L_typ (si out) = L_typ p * 1e6) /\
  (n_x (si out) = n_x p /\ n_y (si out) = n_y p /\
   eta (si out) = eta p /\ t (si out) = t p /\
   n_evmax (si out) = n_evmax p /\ DR (si out) = DR p /\
   L_abs (si out) = L_abs p /\ L_scat (si out) = L_scat p /\
   L_opt (si out) = L_opt p /\ L_crop (si out) = L_crop p).
Proof.
  intros H. apply run_inv in H. destruct H as [-> _].
  simpl. repeat split; reflexivity.
Qed.

Lemma C3_unit_conversion_witness :
  exists out, run scipy_h scipy_c defaults = Ok out /\
    Range (si out) = 400 * 1e3 /\ L_typ (si out) = 20.45 * 1e6 /\
    eta (si out) = 0.35.
Proof.
  destruct run_defaults_ok as [out Hout]. exists out.
  pose proof (C3_unit_conversion scipy_h scipy_c defaults out Hout) as [Hc Hu].
  split; [exact Hout | ].
  split; [apply Hc | ]. split; [apply Hc | apply Hu].
Defined.

(** ** Geometry *)

(** C6: the Earth radius constant is 6378137 m and, on every run, the pixel
    smear is the exposure time times the square root of
    398600000.5 / (range + Earth radius), times 1000, with the range in
    metres; the value is finite whenever range + Earth radius is positive. *)
Theorem C6_pix_smear (h c : R) (p : Params) (out : Output) :
  run h c p = Ok out ->
  R_e = 6378137 /\
  Range (si out) = Range p * 1e3 /\
  pix_smear (geo out) =
    np_map (fun s => t p * s * 1000)
      (np_sqrt (398600000.5 / (Range (si out) + 6378137))) /\
  (0 < Range (si out) + 6378137 ->
   pix_smear (geo out) =
     Some (t p * sqrt (398600000.5 / (Range (si out) + 6378137)) * 1000)).
Proof.
  intros H. apply run_inv in H. destruct H as (Hsi & Hg & _).
  apply geometry_inv in Hg. destruct Hg as (_ & _ & _ & _ & _ & _ & Hps).
  rewrite Hps, Hsi, R_e_value. simpl.
  split; [reflexivity | ]. split; [reflexivity | ].
  assert (Hmap : forall x,
    np_map (fun s => s * 1000) (np_map (fun s => t p * s) x)
    = np_map (fun s => t p * s * 1000) x) by (intros [x | ]; reflexivity).
  rewrite Hmap. split; [reflexivity | ].
  intros Hpos. rewrite np_sqrt_nonneg; [reflexivity | ].
  apply Rlt_le, Rdiv_lt_0_compat; lra.
Qed.

Lemma C6_pix_smear_witness :
  exists out, run scipy_h scipy_c defaults = Ok out /\
    pix_smear (geo out) =
      Some (1.3e-4 * sqrt (398600000.5 / (Range (si out) + 6378137)) * 1000).
Proof.
  destruct run_defaults_ok as [out Hout]. exists out.
  pose proof (C6_pix_smear scipy_h scipy_c defaults out Hout)
    as (_ & Hr & _ & Hfin).
  split; [exact Hout | ]. apply Hfin. rewrite Hr. simpl. lra.
Defined.

(** ** Signal *)

(** C4: on every run the electron count follows the chain
    P = A_det ((A_ap - A_obs) / f^2) BW L_typ (1 - L_abs) (1 - L_scat)
    (1 - L_opt) (1 - L_crop), phi_det = lambda_c P / (c h),
    phi = phi_det / (n_x n_y), n_ev = phi eta t, on the SI inputs. *)
Theorem C4_signal_chain (h c : R) (p : Params) (out : Output) :
  run h c p = Ok out ->
  let s := si out in
  let g := geo out in
  P (sig out) =
    A_det g * ((A_ap g - A_obs g) / f s ^ 2) * BW s * L_typ s
    * (1 - L_abs s) * (1 - L_scat s) * (1 - L_opt s) * (1 - L_crop s) /\
  phi_det (sig out) = (lambda_c s * P (sig out)) / (c * h) /\
  phi (sig out) = phi_det (sig out) / (IZR (n_x s) * IZR (n_y s)) /\
  n_ev (sig out) = phi (sig out) * eta s * t s.
Proof.
  intros H s g. apply run_inv in H. destruct H as (_ & _ & Hs & _).
  apply signal_inv in Hs.
  destruct Hs as (_ & _ & _ & _ & HP & Hpd & Hph & Hne & _).
  fold s g in HP, Hpd, Hph, Hne. rewrite mult_IZR in Hph.
  repeat split; assumption.
Qed.

Lemma C4_signal_chain_witness :
  exists out, run scipy_h scipy_c defaults = Ok out /\
    n_ev (sig out) = phi (sig out) * eta (si out) * t (si out).
Proof.
  destruct run_defaults_ok as [out Hout]. exists out.
  split; [exact Hout | ].
  apply (C4_signal_chain scipy_h scipy_c defaults out Hout).
Defined.

(** ** Noise *)

(** C5: on every run n_sh is the square root of n_ev (not a number below
    zero), n_d = 100 t, n_q = 5, n_fpn = 5e-4 n_ev and
    n_r = n_evmax / 10^(DR/20). *)
Theorem C5_noise_terms (h c : R) (p : Params) (out : Output) :
  run h c p = Ok out ->
  n_sh (noi out) = np_sqrt (n_ev (sig out)) /\
  (0 <= n_ev (sig out) -> n_sh (noi out) = Some (sqrt (n_ev (sig out)))) /\
  n_d (noi out) = 100 * t p /\
  n_q (noi out) = 5 /\
  n_fpn (noi out) = 5e-4 * n_ev (sig out) /\
  n_r (noi out) = n_evmax p / Rpower 10 (DR p / 20).
Proof.
  intros H. apply run_inv in H. destruct H as (Hsi & _ & _ & Hn & _).
  rewrite noise_eq in Hn. injection Hn as <-. rewrite Hsi. simpl.
  split; [reflexivity | ]. split; [apply np_sqrt_nonneg | ].
  repeat split; reflexivity.
Qed.

Lemma C5_noise_terms_witness :
  exists out, run scipy_h scipy_c defaults = Ok out /\
    n_d (noi out) = 100 * 1.3e-4 /\ n_q (noi out) = 5 /\
    n_r (noi out) = 12000 / Rpower 10 (55 / 20) /\
    n_r (noi out) < 12000 / 55.
Proof.
  destruct run_defaults_ok as [out Hout]. exists out.
  pose proof (C5_noise_terms scipy_h scipy_c defaults out Hout)
    as (_ & _ & Hd & Hq & _ & Hr).
  split; [exact Hout | ]. split; [exact Hd | ]. split; [exact Hq | ].
  split; [exact Hr | ]. rewrite Hr.
  pose proof n_r_defaults as Hb. unfold db2volt in Hb. simpl. lra.
Defined.

(** ** SNR *)

(** C1: on every run with a finite shot noise the sum under the square
    root is n_sh^2 + n_d^2 + n_q^2 + n_fpn^2 + n_r^4 and the linear SNR is
    n_ev divided by its square root; a shot noise that is not a number
    makes both not a number. *)
Theorem C1_snr_formula (h c : R) (p : Params) (out : Output) :
  run h c p = Ok out ->
  let n := noi out in
  match n_sh n with
  | Some sh =>
      noise_sum n
      = Some (sh ^ 2 + n_d n ^ 2 + n_q n ^ 2 + n_fpn n ^ 2 + n_r n ^ 4) /\
      snr out
      = Some (n_ev (sig out)
              / sqrt (sh ^ 2 + n_d n ^ 2 + n_q n ^ 2 + n_fpn n ^ 2 + n_r n ^ 4))
  | None => noise_sum n = None /\ snr out = None
  end.
Proof.
  intros H n. apply run_inv in H. destruct H as (_ & _ & _ & Hn & ->).
  fold n in Hn |- *. destruct (n_sh n) as [sh | ] eqn:Hsh.
  - split.
    + apply (noise_sum_ge_25 _ _ _ _ Hn Hsh).
    + apply (snr_cell_finite _ _ _ _ Hn Hsh).
  - apply snr_cell_nan. exact Hsh.
Qed.

Lemma C1_snr_formula_witness :
  exists out, run scipy_h scipy_c defaults = Ok out /\
    match n_sh (noi out) with
    | Some sh =>
        noise_sum (noi out)
        = Some (sh ^ 2 + n_d (noi out) ^ 2 + n_q (noi out) ^ 2
                + n_fpn (noi out) ^ 2 + n_r (noi out) ^ 4) /\
        snr out
        = Some (n_ev (sig out)
                / sqrt (sh ^ 2 + n_d (noi out) ^ 2 + n_q (noi out) ^ 2
                        + n_fpn (noi out) ^ 2 + n_r (noi out) ^ 4))
    | None => noise_sum (noi out) = None /\ snr out = None
    end.
Proof.
  destruct run_defaults_ok as [out Hout]. exists out.
  split; [exact Hout | ].
  exact (C1_snr_formula scipy_h scipy_c defaults out Hout).
Defined.

(** ** The electron count in closed form *)

Lemma run_n_ev (h c : R) (p : Params) (out : Output) :
  run h c p = Ok out ->
  n_ev (sig out) = n_ev_closed h c (unit_conversion p).
Proof.
  intros H. apply run_inv in H. destruct H as (Hsi & Hg & Hs & _).
  apply geometry_inv in Hg. destruct Hg as (_ & _ & Hap & Hob & Hdet & _).
  apply signal_inv in Hs.
  destruct Hs as (Hf & Hch & Hn & _ & HP & Hpd & Hph & Hne & _).
  rewrite Hne, Hph, Hpd, HP, Hap, Hob, Hdet.
  rewrite mult_IZR in Hn |- *. rewrite Hsi in *.
  unfold n_ev_closed.
  set (q := unit_conversion p) in *.
  assert (Hx : IZR (n_x q) <> 0) by (intros E; apply Hn; rewrite E; ring).
  assert (Hy : IZR (n_y q) <> 0) by (intros E; apply Hn; rewrite E; ring).
  assert (Hc : c <> 0) by (intros E; apply Hch; rewrite E; ring).
  assert (Hh : h <> 0) by (intros E; apply Hch; rewrite E; ring).
  field. repeat split; assumption.
Qed.

Lemma n_ev_closed_factor (h c : R) (p : Params) :
  f p <> 0 -> c * h <> 0 ->
  n_ev_closed h c p =
  n_ev_base h c p * (1 - L_abs p) * (1 - L_scat p) * (1 - L_opt p)
  * (1 - L_crop p) * eta p * t p.
Proof.
  intros Hf Hch. unfold n_ev_closed, n_ev_base.
  assert (Hc : c <> 0) by (intros E; apply Hch; rewrite E; ring).
  assert (Hh : h <> 0) by (intros E; apply Hch; rewrite E; ring).
  field. repeat split; assumption.
Qed.

(** What the cells after "Signal" read: the electron count, the exposure
    time, the well capacity and the dynamic range. *)
Lemma run_downstream (h c : R) (p : Params) (out : Output) :
  run h c p = Ok out ->
  saturation (sig out) = n_ev (sig out) / n_evmax p /\
  noi out = {| n_sh := np_sqrt (n_ev (sig out)); n_d := 100 * t p; n_q := 5;
               n_fpn := 0.0005 * n_ev (sig out);
               n_r := n_evmax p / db2volt (DR p) |} /\
  snr out = snr_cell (sig out) (noi out).
Proof.
  intros H. apply run_inv in H. destruct H as (Hsi & _ & Hs & Hn & Hsnr).
  apply signal_inv in Hs. destruct Hs as (_ & _ & _ & _ & _ & _ & _ & _ & Hsat).
  rewrite noise_eq in Hn. injection Hn as Hn. rewrite Hsi in *. simpl in *.
  repeat split; [exact Hsat | symmetry; exact Hn | exact Hsnr].
Qed.

Lemma snr_cell_ext (s s' : Signal) (n : Noise) :
  n_ev s = n_ev s' -> snr_cell s n = snr_cell s' n.
Proof. intros E. unfold snr_cell. rewrite E. reflexivity. Qed.

(** ** Valid inputs *)

Lemma valid_defaults : valid defaults.
Proof. constructor; simpl; try lra; reflexivity. Qed.

Lemma valid_si (p : Params) : valid p -> valid (unit_conversion p).
Proof. intros []. constructor; simpl; try assumption; lra. Qed.

Lemma valid_divisors_nonzero (h c : R) (p : Params) :
  0 < h -> 0 < c -> valid p -> divisors_nonzero h c p.
Proof.
  intros Hh Hc []. unfold divisors_nonzero, R_e. repeat split; try lra.
  - apply Rgt_not_eq, Rmult_lt_0_compat; assumption.
  - lia.
Qed.

Lemma n_ev_base_pos (h c : R) (p : Params) :
  0 < h -> 0 < c -> valid p -> 0 < L_typ p -> 0 < n_ev_base h c p.
Proof.
  intros Hh Hc [] HL. unfold n_ev_base.
  assert (Hd : 0 < D_ap p ^ 2 - D_obs p ^ 2) by nra.
  assert (HD : 0 < D p ^ 2) by (apply pow_lt; assumption).
  assert (Hf : 0 < f p ^ 2) by (apply pow_lt; assumption).
  assert (Hch : 0 < c * h) by (apply Rmult_lt_0_compat; assumption).
  pose proof PI_RGT_0 as Hpi.
  repeat first [ assumption | lra | apply Rdiv_lt_0_compat
               | apply Rmult_lt_0_compat ].
Qed.

(** The product of the transmittances, the quantum efficiency and the
    rest of the chain is positive on valid inputs with positive radiance. *)
Lemma n_ev_closed_pos (h c : R) (p : Params) :
  0 < h -> 0 < c -> valid p -> 0 < L_typ p -> 0 < n_ev_closed h c p.
Proof.
  intros Hh Hc Hv HL. pose proof (n_ev_base_pos h c p Hh Hc Hv HL) as Hb.
  destruct Hv. rewrite n_ev_closed_factor.
  - repeat first [ assumption | lra | apply Rmult_lt_0_compat ].
  - lra.
  - apply Rgt_not_eq, Rmult_lt_0_compat; assumption.
Qed.

Lemma run_valid (h c : R) (p : Params) :
  0 < h -> 0 < c -> valid p ->
  exists out, run h c p = Ok out /\
    n_ev (sig out) =
      n_ev_base h c (unit_conversion p)
      * (1 - L_abs p) * (1 - L_scat p) * (1 - L_opt p) * (1 - L_crop p)
      * eta p * t p.
Proof.
  intros Hh Hc Hv.
  destruct (run_ok h c p (valid_divisors_nonzero h c p Hh Hc Hv)) as [out H].
  exists out. split; [exact H | ].
  rewrite (run_n_ev _ _ _ _ H), n_ev_closed_factor; [reflexivity | | ].
  - destruct Hv. simpl. lra.
  - apply Rgt_not_eq, Rmult_lt_0_compat; assumption.
Qed.

Lemma valid_set_t (p : Params) (v : R) : valid p -> 0 < v -> valid (set_t p v).
Proof. intros [] Hv. constructor; simpl; assumption. Qed.

Lemma valid_set_DR (p : Params) (v : R) :
  valid p -> 0 < v -> valid (set_DR p v).
Proof. intros [] Hv. constructor; simpl; assumption. Qed.

Lemma valid_set_loss (l : Loss) (p : Params) (v : R) :
  valid p -> 0 <= v < 1 -> valid (set_loss l p v).
Proof. intros [] Hv. destruct l; constructor; simpl; assumption. Qed.

Lemma valid_set_L_typ (p : Params) (v : R) : valid p -> valid (set_L_typ p v).
Proof. intros []. constructor; simpl; assumption. Qed.

Lemma loss_range (l : Loss) (p : Params) : valid p -> 0 <= loss l p < 1.
Proof. intros []. destruct l; simpl; assumption. Qed.

Lemma n_ev_base_set_loss (h c : R) (l : Loss) (p : Params) (v : R) :
  n_ev_base h c (unit_conversion (set_loss l p v))
  = n_ev_base h c (unit_conversion p).
Proof. destruct l; reflexivity. Qed.

(** [K * u < K * w] from [u < w] and the positive factors of [K]. *)
Ltac scale_lt K u w :=
  match goal with
  | |- ?x < ?y =>
      replace x with (K * u) by ring; replace y with (K * w) by ring;
      apply Rmult_lt_compat_l;
      [ repeat first [ assumption | apply Rmult_lt_0_compat ] | lra ]
  end.

(** ** Monotonicity *)

Lemma scipy_h_pos : 0 < scipy_h.
Proof. unfold scipy_h. lra. Qed.

Lemma scipy_c_pos : 0 < scipy_c.
Proof. unfold scipy_c. lra. Qed.

(** ** A scene of zero radiance *)

Lemma valid_dark_scene : valid dark_scene.
Proof. apply valid_set_L_typ, valid_defaults. Qed.

Lemma n_ev_zero_radiance (h c : R) (p : Params) (out : Output) :
  L_typ p = 0 -> run h c p = Ok out -> n_ev (sig out) = 0.
Proof.
  intros HL H. rewrite (run_n_ev _ _ _ _ H).
  unfold n_ev_closed. simpl. rewrite HL. unfold Rdiv. ring.
Qed.

Lemma snr_zero_signal (h c : R) (p : Params) (out : Output) :
  run h c p = Ok out -> n_ev (sig out) = 0 -> snr out = Some 0.
Proof.
  intros H Hz. apply run_inv in H. destruct H as (_ & _ & _ & Hn & ->).
  pose proof Hn as Hn'. rewrite noise_eq in Hn'. injection Hn' as Hn'.
  assert (Hsh : n_sh (noi out) = Some (sqrt 0)).
  { rewrite <- Hn'. simpl. rewrite Hz. apply np_sqrt_nonneg. lra. }
  rewrite (snr_cell_finite _ _ _ _ Hn Hsh), Hz. f_equal. unfold Rdiv. ring.
Qed.

(** C7 as stated fails: on the valid inputs [dark_scene], doubling the
    exposure time, or raising the crop loss, leaves n_ev where it was. *)
Lemma C7_counterexample :
  valid dark_scene /\ valid (set_t dark_scene 2.6e-4) /\
  valid (set_loss Crop dark_scene 0.7) /\
  t dark_scene < 2.6e-4 /\ loss Crop dark_scene < 0.7 < 1 /\
  exists out out1 out2,
    run scipy_h scipy_c dark_scene = Ok out /\
    run scipy_h scipy_c (set_t dark_scene 2.6e-4) = Ok out1 /\
    run scipy_h scipy_c (set_loss Crop dark_scene 0.7) = Ok out2 /\
    ~ n_ev (sig out) < n_ev (sig out1) /\
    ~ n_ev (sig out2) < n_ev (sig out).
Proof.
  assert (V1 : valid (set_t dark_scene 2.6e-4))
    by (apply valid_set_t; [exact valid_dark_scene | lra]).
  assert (V2 : valid (set_loss Crop dark_scene 0.7))
    by (apply valid_set_loss; [exact valid_dark_scene | lra]).
  split; [exact valid_dark_scene | ]. split; [exact V1 | ].
  split; [exact V2 | ].
  split; [simpl; lra | ]. split; [simpl; lra | ].
  destruct (run_valid _ _ _ scipy_h_pos scipy_c_pos valid_dark_scene)
    as (out & H & _).
  destruct (run_valid _ _ _ scipy_h_pos scipy_c_pos V1) as (out1 & H1 & _).
  destruct (run_valid _ _ _ scipy_h_pos scipy_c_pos V2) as (out2 & H2 & _).
  exists out, out1, out2.
  rewrite (n_ev_zero_radiance _ _ dark_scene _ eq_refl H).
  rewrite (n_ev_zero_radiance _ _ (set_t dark_scene 2.6e-4) _ eq_refl H1).
  rewrite (n_ev_zero_radiance _ _ (set_loss Crop dark_scene 0.7) _ eq_refl H2).
  repeat split; try assumption; lra.
Qed.

(** ** Non-negativity *)

(** C8 as stated fails: [dark_scene] passes every validation rule, its run
    completes, and its SNR is 0, which is not positive. *)
Lemma C8_counterexample :
  valid dark_scene /\
  exists out, run scipy_h scipy_c dark_scene = Ok out /\
    snr out = Some 0 /\ ~ np_holds (fun v => 0 < v) (snr out).
Proof.
  split; [exact valid_dark_scene | ].
  destruct (run_valid _ _ _ scipy_h_pos scipy_c_pos valid_dark_scene)
    as (out & H & _).
  exists out. split; [exact H | ].
  pose proof (snr_zero_signal _ _ _ _ H
                (n_ev_zero_radiance _ _ dark_scene _ eq_refl H))
    as Hs.
  split; [exact Hs | ]. rewrite Hs. simpl. lra.
Qed.

(** ** Validation *)

(** C2 as stated fails: with the obscuration as wide as the aperture, with
    a quantum efficiency of 0 and with one of 1.5 the run completes, the
    first two with an SNR of 0; with the obscuration wider than the
    aperture it completes with a negative n_ev and an SNR that is not a
    number. *)
Lemma C2_counterexample :
  (D_obs (set_D_obs defaults 11.4) >= D_ap (set_D_obs defaults 11.4) /\
   exists out, run scipy_h scipy_c (set_D_obs defaults 11.4) = Ok out /\
     snr out = Some 0) /\
  (eta (set_eta defaults 0) = 0 /\
   exists out, run scipy_h scipy_c (set_eta defaults 0) = Ok out /\
     snr out = Some 0) /\
  (eta (set_eta defaults 1.5) > 1 /\
   exists out, run scipy_h scipy_c (set_eta defaults 1.5) = Ok out) /\
  (D_obs (set_D_obs defaults 12) >= D_ap (set_D_obs defaults 12) /\
   exists out, run scipy_h scipy_c (set_D_obs defaults 12) = Ok out /\
     n_ev (sig out) < 0 /\ snr out = None).
Proof.
  split; [ | split; [ | split]].
  - split; [simpl; lra | ].
    destruct (run_ok scipy_h scipy_c (set_D_obs defaults 11.4)
                defaults_divisors_nonzero) as [out H].
    exists out. split; [exact H | ]. apply (snr_zero_signal _ _ _ _ H).
    rewrite (run_n_ev _ _ _ _ H). unfold n_ev_closed. simpl.
    unfold Rdiv. ring.
  - split; [reflexivity | ].
    destruct (run_ok scipy_h scipy_c (set_eta defaults 0)
                defaults_divisors_nonzero) as [out H].
    exists out. split; [exact H | ]. apply (snr_zero_signal _ _ _ _ H).
    rewrite (run_n_ev _ _ _ _ H). unfold n_ev_closed. simpl.
    unfold Rdiv. ring.
  - split; [simpl; lra | ].
    apply run_ok. exact defaults_divisors_nonzero.
  - split; [simpl; lra | ].
    destruct (run_ok scipy_h scipy_c (set_D_obs defaults 12)
                defaults_divisors_nonzero) as [out H].
    exists out. split; [exact H | ].
    assert (Hneg : n_ev (sig out) < 0).
    { rewrite (run_n_ev _ _ _ _ H).
      unfold n_ev_closed, scipy_h, scipy_c. simpl.
      pose proof PI_RGT_0 as Hpi. lra. }
    split; [exact Hneg | ].
    destruct (run_downstream _ _ _ _ H) as (_ & Hnoi & ->).
    apply snr_cell_nan. rewrite Hnoi. simpl. apply np_sqrt_neg. exact Hneg.
Qed.

(** ** The reference scenario *)

Lemma PI_bounds : 3.1415 < PI < 3.1421.
Proof.
  pose proof (PI_2_3_7_ineq 1) as H.
  unfold sum_f_R0, tg_alt, PI_2_3_7_tg, Ratan_seq in H. simpl in H.
  lra.
Qed.

(** The electron count of the reference scenario, for any value of the
    Planck constant that rounds to 6.6260e-34 or 6.6261e-34. *)
Lemma n_ev_defaults (h : R) (out : Output) :
  6.626e-34 <= h <= 6.6261e-34 ->
  run h scipy_c defaults = Ok out ->
  3381 <= n_ev (sig out) <= 3383.
Proof.
  intros Hh H. rewrite (run_n_ev _ _ _ _ H).
  unfold n_ev_closed, scipy_c. simpl.
  set (K := 625 * 1e-9 * ((6 * 1e-6) ^ 2 * ((11.4 * 1e-3) ^ 2 / 4)
            / (16 * 1e-3) ^ 2 * (300 * 1e-9) * (20.45 * 1e6)
            * (1 - 0.11) * (1 - 0.0580) * (1 - 0.2) * (1 - 0.6))
            / 299792458 * 0.35 * 1.3e-4).
  match goal with
  | |- _ <= ?e <= _ => replace e with (K * (PI * / h)) by (unfold K; field; lra)
  end.
  pose proof PI_bounds as Hpi.
  assert (Hih : / 6.6261e-34 <= / h <= / 6.626e-34).
  { split; apply Rinv_le_contravar; lra. }
  assert (Hlo : 3.1415 * / 6.6261e-34 <= PI * / h).
  { apply Rmult_le_compat; lra. }
  assert (Hhi : PI * / h <= 3.1421 * / 6.626e-34).
  { apply Rmult_le_compat; lra. }
  set (z := PI * / h) in *. unfold K. lra.
Qed.

Lemma ratio_bounds (n S a b : R) :
  0 < a -> a ^ 2 <= S <= b ^ 2 -> 0 <= n -> a <= b ->
  n / b <= n / sqrt S <= n / a.
Proof.
  intros Ha [HaS HSb] Hn Hab.
  assert (Hra : a <= sqrt S).
  { rewrite <- (sqrt_pow2 a) by lra. apply sqrt_le_1_alt. exact HaS. }
  assert (Hrb : sqrt S <= b).
  { rewrite <- (sqrt_pow2 b) by lra. apply sqrt_le_1_alt. exact HSb. }
  unfold Rdiv. split; apply Rmult_le_compat_l; try exact Hn;
    apply Rinv_le_contravar; lra.
Qed.

Lemma snr_defaults (h : R) (out : Output) :
  6.626e-34 <= h <= 6.6261e-34 ->
  run h scipy_c defaults = Ok out ->
  exists v, snr out = Some v /\ 7.36 <= v <= 7.37.
Proof.
  intros Hh H. pose proof (n_ev_defaults h out Hh H) as Hne.
  destruct (run_downstream _ _ _ _ H) as (_ & Hnoi & Hsnr).
  pose proof H as Hi. apply run_inv in Hi. destruct Hi as (_ & _ & _ & Hn & _).
  assert (Hsh : n_sh (noi out) = Some (sqrt (n_ev (sig out)))).
  { rewrite Hnoi. simpl. apply np_sqrt_nonneg. lra. }
  rewrite Hsnr, (snr_cell_finite _ _ _ _ Hn Hsh), Hnoi.
  eexists. split; [reflexivity | ].
  unfold spec_noise_sum. cbn [n_d n_q n_fpn n_r t n_evmax DR defaults].
  set (n := n_ev (sig out)) in *. set (r := 12000 / db2volt 55).
  pose proof n_r_defaults as Hr. fold r in Hr.
  rewrite pow2_sqrt by lra.
  assert (Hr4 : 21.339 ^ 4 <= r ^ 4 <= 21.3395 ^ 4)
    by (split; apply pow_incr; lra).
  assert (Hf2 : (0.0005 * 3381) ^ 2 <= (0.0005 * n) ^ 2 <= (0.0005 * 3383) ^ 2)
    by (split; apply pow_incr; lra).
  set (S := n + (100 * 1.3e-4) ^ 2 + 5 ^ 2 + (0.0005 * n) ^ 2 + r ^ 4).
  assert (HS : 459.08 ^ 2 <= S <= 459.11 ^ 2) by (unfold S; lra).
  destruct (ratio_bounds n S 459.08 459.11) as [Hlo Hhi];
    [lra | exact HS | lra | lra | ].
  lra.
Qed.

Lemma ln_10_pos : 0 < ln 10.
Proof. rewrite <- ln_1. apply ln_increasing; lra. Qed.

(** [pow2db] of the reference SNR rounds to 8.7 dB. *)
Lemma pow2db_snr_defaults (v : R) :
  7.36 <= v <= 7.37 ->
  exists db, pow2db v = Some db /\ Rabs (db - 8.7) <= 0.05.
Proof.
  intros Hv. unfold pow2db. destruct (Rle_dec v 0) as [L | _]; [lra | ].
  eexists. split; [reflexivity | ].
  pose proof ln_10_pos as H10.
  assert (HA : 173 * ln 10 < 200 * ln v).
  { assert (E : ln (10 ^ 173) < ln (v ^ 200)).
    { apply ln_increasing; [apply pow_lt; lra | ].
      apply Rlt_le_trans with (7.36 ^ 200); [lra | apply pow_incr; lra]. }
    rewrite !ln_pow in E by lra. rewrite !INR_IZR_INZ in E. exact E. }
  assert (HB : 8 * ln v < 7 * ln 10).
  { assert (E : ln (v ^ 8) < ln (10 ^ 7)).
    { apply ln_increasing; [apply pow_lt; lra | ].
      apply Rle_lt_trans with (7.37 ^ 8); [apply pow_incr; lra | lra]. }
    rewrite !ln_pow in E by lra. rewrite !INR_IZR_INZ in E. exact E. }
  set (q := ln v / ln 10).
  assert (Hq : ln v = q * ln 10) by (unfold q; field; lra).
  rewrite Hq in HA, HB.
  assert (8.65 <= 10 * q <= 8.75) by (split; nra).
  apply Rabs_le. lra.
Qed.

(** C9: on the reference configuration, for any value of the Planck
    constant between 6.626e-34 and 6.6261e-34 and the speed of light
    299792458, the run completes with n_ev within 1% of 3.38e3, a
    saturation fraction within 1% of 0.282 and a linear SNR within 1% of
    7.4, which [pow2db] turns into 8.7 dB to within 0.05. *)
Theorem C9_reference_scenario (h : R) :
  6.626e-34 <= h <= 6.6261e-34 ->
  exists out v db,
    run h scipy_c defaults = Ok out /\
    within_1pct (n_ev (sig out)) 3.38e3 /\
    within_1pct (saturation (sig out)) 0.282 /\
    snr out = Some v /\ within_1pct v 7.4 /\
    pow2db v = Some db /\ Rabs (db - 8.7) <= 0.05.
Proof.
  intros Hh.
  destruct (run_valid h scipy_c defaults) as (out & H & _);
    [lra | exact scipy_c_pos | exact valid_defaults | ].
  pose proof (n_ev_defaults h out Hh H) as Hne.
  destruct (snr_defaults h out Hh H) as (v & Hv & Hvb).
  destruct (pow2db_snr_defaults v Hvb) as (db & Hdb & Hdbb).
  destruct (run_downstream _ _ _ _ H) as (Hsat & _ & _). simpl in Hsat.
  exists out, v, db. unfold within_1pct.
  repeat split; try assumption.
  - rewrite (Rabs_pos_eq 3.38e3) by lra. apply Rabs_le. lra.
  - rewrite Hsat, (Rabs_pos_eq 0.282) by lra. apply Rabs_le.
    unfold Rdiv. lra.
  - rewrite (Rabs_pos_eq 7.4) by lra. apply Rabs_le. lra.
Qed.

Lemma C9_reference_scenario_witness :
  exists out v db,
    run scipy_h scipy_c defaults = Ok out /\
    within_1pct (n_ev (sig out)) 3.38e3 /\
    within_1pct (saturation (sig out)) 0.282 /\
    snr out = Some v /\ within_1pct v 7.4 /\
    pow2db v = Some db /\ Rabs (db - 8.7) <= 0.05.
Proof.
  apply (C9_reference_scenario scipy_h). unfold scipy_h. lra.
Defined.

(** * Inputs of moderate magnitude *)

(** ** The model in exact arithmetic *)

(** Over the reals the factor n_x n_y of A_det cancels against the division
    in phi: a run of the model that completes with positive pixel counts
    completes with any others, with the same values. *)
Lemma exact_pixel_count_cancellation
  (h c : R) (p : Params) (nx ny nx' ny' : Z) (out : Output) :
  (0 < nx)%Z -> (0 < ny)%Z -> (0 < nx')%Z -> (0 < ny')%Z ->
  run h c (set_pixels p nx ny) = Ok out ->
  exists out', run h c (set_pixels p nx' ny') = Ok out' /\
    n_ev (sig out') = n_ev (sig out) /\
    saturation (sig out') = saturation (sig out) /\
    noi out' = noi out /\
    snr out' = snr out.
Proof.
  intros Hx Hy Hx' Hy' H.
  pose proof (run_ok_inv _ _ _ _ H) as (Hf & Hr & Hch & _ & Hm).
  destruct (run_ok h c (set_pixels p nx' ny')) as [out' H'].
  { repeat split; try assumption. simpl. lia. }
  exists out'. split; [exact H' | ].
  assert (E : n_ev (sig out') = n_ev (sig out)).
  { rewrite (run_n_ev _ _ _ _ H), (run_n_ev _ _ _ _ H'). reflexivity. }
  destruct (run_downstream _ _ _ _ H) as (Hsat & Hn & Hsnr).
  destruct (run_downstream _ _ _ _ H') as (Hsat' & Hn' & Hsnr').
  simpl in *.
  assert (En : noi out' = noi out) by (rewrite Hn, Hn', E; reflexivity).
  repeat split.
  - exact E.
  - rewrite Hsat, Hsat', E. reflexivity.
  - exact En.
  - rewrite Hsnr, Hsnr', En. apply snr_cell_ext. exact E.
Qed.

(** Over the reals: the strict monotonicity of n_ev in the exposure time and
    the losses, and of n_r in the dynamic range. *)
Lemma exact_monotonicity (h c : R) (p : Params) :
  0 < h -> 0 < c -> valid p ->
  exists out, run h c p = Ok out /\
    (0 < L_typ p ->
     (forall t', t p < t' ->
        exists out', run h c (set_t p t') = Ok out' /\
          n_ev (sig out) < n_ev (sig out')) /\
     (forall l v, loss l p < v < 1 ->
        exists out', run h c (set_loss l p v) = Ok out' /\
          n_ev (sig out') < n_ev (sig out))) /\
    (forall d, DR p < d ->
       exists out', run h c (set_DR p d) = Ok out' /\
         n_r (noi out') < n_r (noi out)).
Proof.
  intros Hh Hc Hv.
  destruct (run_valid h c p Hh Hc Hv) as (out & H & Hne).
  exists out. split; [exact H | ].
  pose proof Hv as [].
  split; [intros HL; split | ].
  - intros t' Ht.
    destruct (run_valid h c (set_t p t') Hh Hc) as (out' & H' & Hne').
    { apply valid_set_t; [exact Hv | lra]. }
    exists out'. split; [exact H' | ]. rewrite Hne, Hne'.
    assert (Hb : 0 < n_ev_base h c (unit_conversion p)).
    { apply n_ev_base_pos; try assumption; [apply valid_si, Hv | simpl; lra]. }
    change (n_ev_base h c (unit_conversion (set_t p t')))
      with (n_ev_base h c (unit_conversion p)).
    set (B := n_ev_base h c (unit_conversion p)) in *. simpl.
    apply Rmult_lt_compat_l; [ | exact Ht].
    repeat first [ assumption | lra | apply Rmult_lt_0_compat ].
  - intros l v Hlv. pose proof (loss_range l p Hv) as Hl.
    destruct (run_valid h c (set_loss l p v) Hh Hc) as (out' & H' & Hne').
    { apply valid_set_loss; [exact Hv | lra]. }
    exists out'. split; [exact H' | ]. rewrite Hne, Hne'.
    assert (Hb : 0 < n_ev_base h c (unit_conversion p)).
    { apply n_ev_base_pos; try assumption; [apply valid_si, Hv | simpl; lra]. }
    rewrite n_ev_base_set_loss.
    set (B := n_ev_base h c (unit_conversion p)) in *.
    assert (Ha : 0 < 1 - L_abs p) by lra.
    assert (Hs : 0 < 1 - L_scat p) by lra.
    assert (Ho : 0 < 1 - L_opt p) by lra.
    assert (Hk : 0 < 1 - L_crop p) by lra.
    assert (He : 0 < eta p) by lra.
    destruct l; simpl in Hlv |- *.
    + scale_lt (B * eta p * t p * (1 - L_scat p) * (1 - L_opt p)
                * (1 - L_crop p)) (1 - v) (1 - L_abs p).
    + scale_lt (B * eta p * t p * (1 - L_abs p) * (1 - L_opt p)
                * (1 - L_crop p)) (1 - v) (1 - L_scat p).
    + scale_lt (B * eta p * t p * (1 - L_abs p) * (1 - L_scat p)
                * (1 - L_crop p)) (1 - v) (1 - L_opt p).
    + scale_lt (B * eta p * t p * (1 - L_abs p) * (1 - L_scat p)
                * (1 - L_opt p)) (1 - v) (1 - L_crop p).
  - intros d Hd.
    destruct (run_valid h c (set_DR p d) Hh Hc) as (out' & H' & _).
    { apply valid_set_DR; [exact Hv | lra]. }
    exists out'. split; [exact H' | ].
    destruct (run_downstream _ _ _ _ H) as (_ & -> & _).
    destruct (run_downstream _ _ _ _ H') as (_ & -> & _). simpl.
    apply Rmult_lt_compat_l; [assumption | ].
    apply Rinv_lt_contravar.
    + apply Rmult_lt_0_compat; apply db2volt_pos.
    + apply db2volt_lt. exact Hd.
Qed.

(** Over the reals: the signs of the results of a run on valid inputs with
    a radiance that is not negative. *)
Lemma exact_nonnegativity (h c : R) (p : Params) :
  0 < h -> 0 < c -> valid p -> 0 <= L_typ p ->
  exists out, run h c p = Ok out /\
    (0 <= A_ap (geo out) /\ 0 <= A_obs (geo out) /\ 0 <= A_det (geo out)) /\
    (0 <= n_ev (sig out) /\ 0 <= saturation (sig out)) /\
    (np_holds (fun v => 0 <= v) (n_sh (noi out)) /\
     0 <= n_d (noi out) /\ 0 <= n_q (noi out) /\
     0 <= n_fpn (noi out) /\ 0 <= n_r (noi out)) /\
    np_holds (fun s => 0 < s) (noise_sum (noi out)) /\
    np_holds (fun r => r <> 0) (np_bind (noise_sum (noi out)) np_sqrt) /\
    np_holds (fun v => 0 <= v) (snr out) /\
    (0 < L_typ p -> np_holds (fun v => 0 < v) (snr out)) /\
    (L_typ p = 0 -> snr out = Some 0).
Proof.
  intros Hh Hc Hv HL.
  destruct (run_ok h c p (valid_divisors_nonzero h c p Hh Hc Hv)) as [out H].
  exists out. split; [exact H | ].
  assert (Hpos : 0 < L_typ p -> 0 < n_ev (sig out)).
  { intros HL'. rewrite (run_n_ev _ _ _ _ H).
    apply n_ev_closed_pos; try assumption; [apply valid_si, Hv | simpl; lra]. }
  assert (Hne : 0 <= n_ev (sig out)).
  { destruct HL as [HL | HL]; [apply Rlt_le, Hpos, HL | ].
    rewrite (n_ev_zero_radiance _ _ _ _ (eq_sym HL) H). lra. }
  destruct (run_downstream _ _ _ _ H) as (Hsat & Hnoi & Hsnr).
  pose proof H as Hi. apply run_inv in Hi.
  destruct Hi as (Hsi & Hg & _ & Hn & _).
  apply geometry_inv in Hg. destruct Hg as (_ & _ & Hap & Hob & Hdet & _).
  rewrite Hsi in Hap, Hob, Hdet.
  pose proof Hv as []. pose proof PI_RGT_0 as Hpi.
  assert (Hsh : n_sh (noi out) = Some (sqrt (n_ev (sig out)))).
  { rewrite Hnoi. simpl. apply np_sqrt_nonneg. exact Hne. }
  destruct (noise_sum_ge_25 _ _ _ _ Hn Hsh) as [Hsum Hge].
  pose proof (snr_cell_finite _ _ _ _ Hn Hsh) as Hfin.
  match type of Hge with
  | 25 <= ?e =>
      set (S := e) in *;
      assert (HS : 0 < sqrt S) by (apply sqrt_lt_R0; lra)
  end.
  split; [ | split; [ | split; [ | split; [ | split; [ | split; [ | split]]]]]].
  - rewrite Hap, Hob, Hdet. repeat split.
    + apply Rmult_le_pos; [ | lra].
      apply Rmult_le_pos; [lra | apply pow2_ge_0].
    + apply Rmult_le_pos; [ | lra].
      apply Rmult_le_pos; [lra | apply pow2_ge_0].
    + apply Rmult_le_pos; [apply Rmult_le_pos; [apply pow2_ge_0 | ] | ];
        apply IZR_le; simpl; lia.
  - split; [exact Hne | ]. rewrite Hsat.
    apply Rmult_le_pos; [exact Hne | ].
    apply Rlt_le, Rinv_0_lt_compat. assumption.
  - rewrite Hsh. rewrite Hnoi. simpl. repeat split; try lra.
    + apply sqrt_pos.
    + apply Rlt_le, Rdiv_lt_0_compat; [assumption | apply db2volt_pos].
  - rewrite Hsum. simpl. lra.
  - rewrite Hsum. simpl. rewrite np_sqrt_nonneg by lra. simpl. lra.
  - rewrite Hsnr, Hfin. simpl.
    apply Rmult_le_pos; [exact Hne | apply Rlt_le, Rinv_0_lt_compat, HS].
  - intros HL'. rewrite Hsnr, Hfin. simpl.
    apply Rdiv_lt_0_compat; [apply Hpos, HL' | exact HS].
  - intros HL'. apply (snr_zero_signal _ _ _ _ H).
    exact (n_ev_zero_radiance _ _ _ _ HL' H).
Qed.

(** ** The moderate inputs *)

Lemma moderate_valid (p : Params) : moderate p -> valid p.
Proof. intros []. constructor; try lra; lia. Qed.

Lemma moderate_defaults : moderate defaults.
Proof. constructor; simpl; try lra; lia. Qed.

Lemma planck_range_pos (h : R) : planck_range h -> 0 < h.
Proof. unfold planck_range. lra. Qed.

Lemma scipy_h_range : planck_range scipy_h.
Proof. unfold planck_range, scipy_h. lra. Qed.

Lemma rel_close_refl (x : R) : rel_close x x.
Proof.
  unfold rel_close. rewrite Rminus_diag, Rabs_R0.
  apply Rmult_le_pos; [lra | apply Rabs_pos].
Qed.

Lemma set_t_same (p : Params) : set_t p (t p) = p.
Proof. destruct p. reflexivity. Qed.

Lemma set_loss_same (l : Loss) (p : Params) : set_loss l p (loss l p) = p.
Proof. destruct p, l; reflexivity. Qed.

Lemma geometry_lines_spec (p : Params) :
  match geometry p with
  | Ok g =>
      geometry_lines p
      = (mkGeometryVars (Some (A_ap g)) (Some (A_obs g)) (Some (A_det g))
           (Some (iFOV_px g)) (Some (pix_smear g)), None)
  | Raise e => snd (geometry_lines p) = Some e
  end.
Proof.
  unfold geometry, geometry_lines.
  destruct (truediv (0.5 * D p) (f p)) as [q | e]; simpl; [ | reflexivity].
  destruct (truediv 398600000.5 (Range p + R_e)) as [v | e]; reflexivity.
Qed.

Lemma run_geometry_raise (h c : R) (p : Params) (e : exn) :
  geometry (unit_conversion p) = Raise e -> run h c p = Raise e.
Proof. intros H. unfold run. rewrite H. reflexivity. Qed.

(** ** Non-negativity, on moderate inputs *)

(** C8, amended: on inputs that satisfy the validation rules and are of
    moderate magnitude (with a radiance of at least 1e-6 and an obscuration
    of at most 0.999999 of the aperture) the run completes; the three
    areas, n_ev, the saturation fraction and the five noise terms are
    non-negative; the sum under the square root is positive and its root,
    the divisor of the SNR, is not zero; the SNR is positive.  With the
    radiance set to 0 the run completes with n_ev = 0 and an SNR of 0. *)
Theorem C8_nonnegativity (h : R) (p : Params) :
  planck_range h -> moderate p ->
  (exists out, run h scipy_c p = Ok out /\
     (0 <= A_ap (geo out) /\ 0 <= A_obs (geo out) /\ 0 <= A_det (geo out)) /\
     (0 <= n_ev (sig out) /\ 0 <= saturation (sig out)) /\
     (np_holds (fun v => 0 <= v) (n_sh (noi out)) /\
      0 <= n_d (noi out) /\ 0 <= n_q (noi out) /\
      0 <= n_fpn (noi out) /\ 0 <= n_r (noi out)) /\
     np_holds (fun s => 0 < s) (noise_sum (noi out)) /\
     np_holds (fun r => r <> 0) (np_bind (noise_sum (noi out)) np_sqrt) /\
     np_holds (fun v => 0 < v) (snr out)) /\
  (exists out0, run h scipy_c (set_L_typ p 0) = Ok out0 /\
     n_ev (sig out0) = 0 /\ snr out0 = Some 0).
Proof.
  intros Hh Hm. pose proof (planck_range_pos h Hh) as Hh0.
  pose proof (moderate_valid p Hm) as Hv.
  assert (HL : 0 < L_typ p) by (destruct Hm; lra).
  split.
  - destruct (exact_nonnegativity h scipy_c p Hh0 scipy_c_pos Hv
                (Rlt_le _ _ HL))
      as (out & H & Ha & Hs & Hn & Hsum & Hdiv & _ & Hpos & _).
    exists out. repeat (split; [assumption | ]). exact (Hpos HL).
  - destruct (run_valid h scipy_c (set_L_typ p 0) Hh0 scipy_c_pos
                (valid_set_L_typ p 0 Hv)) as (out0 & H0 & _).
    exists out0. split; [exact H0 | ].
    pose proof (n_ev_zero_radiance _ _ (set_L_typ p 0) _ eq_refl H0) as Hz.
    split; [exact Hz | exact (snr_zero_signal _ _ _ _ H0 Hz)].
Qed.

Lemma C8_nonnegativity_witness :
  (exists out, run scipy_h scipy_c defaults = Ok out /\
     (0 <= A_ap (geo out) /\ 0 <= A_obs (geo out) /\ 0 <= A_det (geo out)) /\
     (0 <= n_ev (sig out) /\ 0 <= saturation (sig out)) /\
     (np_holds (fun v => 0 <= v) (n_sh (noi out)) /\
      0 <= n_d (noi out) /\ 0 <= n_q (noi out) /\
      0 <= n_fpn (noi out) /\ 0 <= n_r (noi out)) /\
     np_holds (fun s => 0 < s) (noise_sum (noi out)) /\
     np_holds (fun r => r <> 0) (np_bind (noise_sum (noi out)) np_sqrt) /\
     np_holds (fun v => 0 < v) (snr out)) /\
  (exists out0, run scipy_h scipy_c (set_L_typ defaults 0) = Ok out0 /\
     n_ev (sig out0) = 0 /\ snr out0 = Some 0).
Proof.
  exact (C8_nonnegativity scipy_h defaults scipy_h_range moderate_defaults).
Defined.

(** ** Monotonicity, on moderate inputs *)

(** C7, amended: on moderate inputs and all else fixed, an exposure time
    that is not shorter (up to 1e3 s) gives an n_ev that is not smaller,
    strictly larger when the time grows by one part in 1e9 or more; a loss
    fraction that is not smaller (up to 0.999999) gives an n_ev that is not
    larger, strictly smaller when the loss grows by 1e-9 or more; a dynamic
    range larger by 1e-9 dB or more (up to 200 dB) gives a strictly smaller
    n_r.  Every run involved completes. *)
Theorem C7_monotonicity (h : R) (p : Params) :
  planck_range h -> moderate p ->
  exists out, run h scipy_c p = Ok out /\
    (forall t', t p <= t' <= 1e3 ->
       exists out', run h scipy_c (set_t p t') = Ok out' /\
         n_ev (sig out) <= n_ev (sig out') /\
         (t p * (1 + 1e-9) <= t' -> n_ev (sig out) < n_ev (sig out'))) /\
    (forall l v, loss l p <= v <= 0.999999 ->
       exists out', run h scipy_c (set_loss l p v) = Ok out' /\
         n_ev (sig out') <= n_ev (sig out) /\
         (loss l p + 1e-9 <= v -> n_ev (sig out') < n_ev (sig out))) /\
    (forall d, DR p + 1e-9 <= d <= 200 ->
       exists out', run h scipy_c (set_DR p d) = Ok out' /\
         n_r (noi out') < n_r (noi out)).
Proof.
  intros Hh Hm. pose proof (planck_range_pos h Hh) as Hh0.
  pose proof (moderate_valid p Hm) as Hv.
  assert (HL : 0 < L_typ p) by (destruct Hm; lra).
  assert (Ht0 : 0 < t p) by (destruct Hm; lra).
  destruct (exact_monotonicity h scipy_c p Hh0 scipy_c_pos Hv)
    as (out & H & Hs & Hd).
  destruct (Hs HL) as [Hst Hsl].
  exists out. split; [exact H | ]. split; [ | split].
  - intros t' [Hle _]. destruct Hle as [Hlt | Heq].
    + destruct (Hst t' Hlt) as (out' & H' & Hn).
      exists out'. split; [exact H' | ]. split; [lra | intros _; exact Hn].
    + exists out. rewrite <- Heq, set_t_same.
      split; [exact H | ]. split; [lra | intros Hc; exfalso; nra].
  - intros l v [Hle Hv1]. destruct Hle as [Hlt | Heq].
    + destruct (Hsl l v) as (out' & H' & Hn); [lra | ].
      exists out'. split; [exact H' | ]. split; [lra | intros _; exact Hn].
    + exists out. rewrite <- Heq, set_loss_same.
      split; [exact H | ]. split; [lra | intros Hc; exfalso; lra].
  - intros d [Hlo _]. apply Hd. lra.
Qed.

Lemma C7_monotonicity_witness :
  exists out, run scipy_h scipy_c defaults = Ok out /\
    (forall t', t defaults <= t' <= 1e3 ->
       exists out', run scipy_h scipy_c (set_t defaults t') = Ok out' /\
         n_ev (sig out) <= n_ev (sig out') /\
         (t defaults * (1 + 1e-9) <= t' -> n_ev (sig out) < n_ev (sig out'))) /\
    (forall l v, loss l defaults <= v <= 0.999999 ->
       exists out', run scipy_h scipy_c (set_loss l defaults v) = Ok out' /\
         n_ev (sig out') <= n_ev (sig out) /\
         (loss l defaults + 1e-9 <= v -> n_ev (sig out') < n_ev (sig out))) /\
    (forall d, DR defaults + 1e-9 <= d <= 200 ->
       exists out', run scipy_h scipy_c (set_DR defaults d) = Ok out' /\
         n_r (noi out') < n_r (noi out)).
Proof.
  exact (C7_monotonicity scipy_h defaults scipy_h_range moderate_defaults).
Defined.

(** ** Validation, on moderate inputs *)

Lemma valid_unit_efficiency (p : Params) :
  valid p -> valid (set_eta (set_D_obs p 0) 1).
Proof. intros []. constructor; simpl; try assumption; lra. Qed.

(** C2, amended: the notebook validates nothing.  With the other inputs
    moderate, any obscuration diameter [d] from 0 to 1e6 mm (also one equal
    to or above the aperture diameter) and any quantum efficiency [e] from
    0 to 1e6 (also 0, also above 1) give a run that completes, with
    n_ev <= 0 when [d] is at least the aperture diameter and with n_ev = 0
    and an SNR of 0 when [e] is 0.  A run that fails does so by a Python
    arithmetic exception and leaves assigned what its earlier lines
    assigned: with a focal length of 0 it raises ZeroDivisionError at
    line 144, with the three areas of lines 141 to 143 assigned. *)
Theorem C2_no_validation (h : R) (p : Params) (d e : R) :
  planck_range h -> moderate p -> 0 <= d <= 1e6 -> 0 <= e <= 1e6 ->
  (exists out, run h scipy_c (set_eta (set_D_obs p d) e) = Ok out /\
     (D_ap p <= d -> n_ev (sig out) <= 0) /\
     (e = 0 -> n_ev (sig out) = 0 /\ snr out = Some 0)) /\
  (run h scipy_c (set_f p 0) = Raise ZeroDivisionError /\
   geometry_lines (unit_conversion (set_f p 0))
   = (mkGeometryVars
        (Some (PI * ((D_ap p * 1e-3) ^ 2) / 4))
        (Some (PI * ((D_obs p * 1e-3) ^ 2) / 4))
        (Some ((D p * 1e-6) ^ 2 * IZR (n_x p) * IZR (n_y p)))
        None None,
      Some ZeroDivisionError)).
Proof.
  intros Hh Hm Hd He. pose proof (planck_range_pos h Hh) as Hh0.
  pose proof (moderate_valid p Hm) as Hv.
  assert (HL : 0 < L_typ p) by (destruct Hm; lra).
  pose proof (valid_divisors_nonzero h scipy_c p Hh0 scipy_c_pos Hv) as Hdiv.
  split.
  - destruct (run_ok h scipy_c (set_eta (set_D_obs p d) e) Hdiv) as [out H].
    exists out. split; [exact H | ].
    assert (H1 : 0 < n_ev_closed h scipy_c
                       (unit_conversion (set_eta (set_D_obs p 0) 1))).
    { apply n_ev_closed_pos; try assumption;
        [exact scipy_c_pos | apply valid_si, valid_unit_efficiency, Hv
        | simpl; lra]. }
    pose proof Hv as [].
    assert (Hap : 0 < D_ap p ^ 2) by (apply pow_lt; assumption).
    assert (E : n_ev (sig out) * D_ap p ^ 2
                = n_ev_closed h scipy_c
                    (unit_conversion (set_eta (set_D_obs p 0) 1))
                  * e * (D_ap p ^ 2 - d ^ 2)).
    { rewrite (run_n_ev _ _ _ _ H). unfold n_ev_closed, scipy_c. simpl.
      field. repeat split; lra. }
    set (n := n_ev (sig out)) in *.
    set (n1 := n_ev_closed h scipy_c
                 (unit_conversion (set_eta (set_D_obs p 0) 1))) in *.
    split.
    + intros Hge.
      assert (Hsq : D_ap p ^ 2 <= d ^ 2) by nra.
      assert (Hn1e : 0 <= n1 * e) by (apply Rmult_le_pos; lra).
      assert (Hprod : n * D_ap p ^ 2 <= 0) by (rewrite E; nra).
      nra.
    + intros ->.
      assert (Hz : n = 0) by nra.
      split; [exact Hz | exact (snr_zero_signal _ _ _ _ H Hz)].
  - assert (Hg : geometry (unit_conversion (set_f p 0))
                 = Raise ZeroDivisionError).
    { unfold geometry. simpl. rewrite Rmult_0_l, truediv_zero. reflexivity. }
    split; [exact (run_geometry_raise _ _ _ _ Hg) | ].
    unfold geometry_lines. simpl. rewrite Rmult_0_l, truediv_zero.
    reflexivity.
Qed.

Lemma C2_no_validation_witness :
  (exists out,
     run scipy_h scipy_c (set_eta (set_D_obs defaults 11.4) 0) = Ok out /\
     n_ev (sig out) <= 0 /\ n_ev (sig out) = 0 /\ snr out = Some 0) /\
  run scipy_h scipy_c (set_f defaults 0) = Raise ZeroDivisionError /\
  geometry_lines (unit_conversion (set_f defaults 0))
  = (mkGeometryVars
       (Some (PI * ((D_ap defaults * 1e-3) ^ 2) / 4))
       (Some (PI * ((D_obs defaults * 1e-3) ^ 2) / 4))
       (Some ((D defaults * 1e-6) ^ 2 * IZR (n_x defaults)
              * IZR (n_y defaults)))
       None None,
     Some ZeroDivisionError).
Proof.
  destruct (C2_no_validation scipy_h defaults 11.4 0)
    as ((out & H & Hd & He) & Hr & Hg);
    [exact scipy_h_range | exact moderate_defaults | lra | lra | ].
  split; [ | split; [exact Hr | exact Hg]].
  exists out. split; [exact H | ].
  split; [apply Hd; simpl; lra | exact (He eq_refl)].
Defined.

(** ** The pixel counts *)

(** C10, amended: on moderate inputs a run completes with any pixel counts
    from 1 to 1e6 as it does with its own, with the same n_d, n_q and n_r
    and with an n_ev, a saturation fraction, an n_sh, an n_fpn and an SNR
    that agree to one part in 1e9: the factor n_x n_y cancels in exact
    arithmetic, not bit for bit. *)
Theorem C10_pixel_count_independence (h : R) (p : Params) (nx ny : Z) :
  planck_range h -> moderate p ->
  (1 <= nx <= 1000000)%Z -> (1 <= ny <= 1000000)%Z ->
  exists out out',
    run h scipy_c p = Ok out /\
    run h scipy_c (set_pixels p nx ny) = Ok out' /\
    rel_close (n_ev (sig out')) (n_ev (sig out)) /\
    rel_close (saturation (sig out')) (saturation (sig out)) /\
    (exists s s', n_sh (noi out) = Some s /\ n_sh (noi out') = Some s' /\
       rel_close s' s) /\
    n_d (noi out') = n_d (noi out) /\
    n_q (noi out') = n_q (noi out) /\
    rel_close (n_fpn (noi out')) (n_fpn (noi out)) /\
    n_r (noi out') = n_r (noi out) /\
    (exists v v', snr out = Some v /\ snr out' = Some v' /\ rel_close v' v).
Proof.
  intros Hh Hm Hx Hy. pose proof (planck_range_pos h Hh) as Hh0.
  pose proof (moderate_valid p Hm) as Hv.
  assert (HL : 0 < L_typ p) by (destruct Hm; lra).
  destruct (exact_nonnegativity h scipy_c p Hh0 scipy_c_pos Hv
              (Rlt_le _ _ HL))
    as (out & H & _ & _ & (Hsh & _) & _ & _ & Hsnr & _).
  assert (Hp : set_pixels p (n_x p) (n_y p) = p) by (destruct p; reflexivity).
  destruct (exact_pixel_count_cancellation h scipy_c p
              (n_x p) (n_y p) nx ny out) as (out' & H' & En & Es & Eno & Esn);
    [destruct Hm; lia | destruct Hm; lia | lia | lia
    | rewrite Hp; exact H | ].
  exists out, out'. split; [exact H | ]. split; [exact H' | ].
  rewrite En, Es, Eno, Esn.
  split; [apply rel_close_refl | ]. split; [apply rel_close_refl | ].
  split.
  { destruct (n_sh (noi out)) as [s | ]; [ | contradiction].
    exists s, s. repeat split. apply rel_close_refl. }
  split; [reflexivity | ]. split; [reflexivity | ].
  split; [apply rel_close_refl | ]. split; [reflexivity | ].
  destruct (snr out) as [v | ]; [ | contradiction].
  exists v, v. repeat split. apply rel_close_refl.
Qed.

Lemma C10_pixel_count_independence_witness :
  exists out out',
    run scipy_h scipy_c defaults = Ok out /\
    run scipy_h scipy_c (set_pixels defaults 1000 1000) = Ok out' /\
    rel_close (n_ev (sig out')) (n_ev (sig out)) /\
    rel_close (saturation (sig out')) (saturation (sig out)) /\
    (exists s s', n_sh (noi out) = Some s /\ n_sh (noi out') = Some s' /\
       rel_close s' s) /\
    n_d (noi out') = n_d (noi out) /\
    n_q (noi out') = n_q (noi out) /\
    rel_close (n_fpn (noi out')) (n_fpn (noi out)) /\
    n_r (noi out') = n_r (noi out) /\
    (exists v v', snr out = Some v /\ snr out' = Some v' /\ rel_close v' v).
Proof.
  apply (C10_pixel_count_independence scipy_h defaults 1000 1000).
  - exact scipy_h_range.
  - exact moderate_defaults.
  - lia.
  - lia.
Defined.

#[local] Set Warnings "-inexact-float".

(** C10 as stated fails: in binary64 the n_ev of the reference
    configuration is 3382.0673821675041 with 2200 x 3208 pixels and
    3382.0673821675045 with 1000 x 1000. *)
Lemma C10_counterexample :
  B64.n_ev_run B64.defaults = B64.Ok 3382.0673821675041%float /\
  B64.n_ev_run (B64.set_pixels B64.defaults 1000 1000)
  = B64.Ok 3382.0673821675045%float /\
  PrimFloat.eqb 3382.0673821675041 3382.0673821675045 = false.
Proof. repeat split; vm_compute; reflexivity. Qed.

(** * Further properties of the notebook *)

(** ** The geometry cell *)

Lemma geometry_range_defaults : geometry_range (unit_conversion defaults).
Proof. constructor; simpl; try lra; lia. Qed.

(** X6: for a pixel pitch and diameters within 1e100 m and pixel counts
    within 1e18, the geometry cell raises ZeroDivisionError exactly when the
    focal length is zero or the range is minus the Earth radius; when it
    completes, the pixel smear is not a number for a range below minus the
    Earth radius, and is a finite number for range + Earth radius from 1 to
    1e100 m and an exposure time within 1e100 s. *)
Theorem geometry_errors (p : Params) :
  geometry_range p ->
  (geometry p = Raise ZeroDivisionError <-> f p = 0 \/ Range p + R_e = 0) /\
  (forall g, geometry p = Ok g -> Range p + R_e < 0 -> pix_smear g = None) /\
  (forall g, geometry p = Ok g ->
     1 <= Range p + R_e <= 1e100 -> -1e100 <= t p <= 1e100 ->
     exists s, pix_smear g = Some s).
Proof.
  intros _. split; [split | split].
  - intros H. destruct (Req_dec_T (f p) 0) as [Ef | Nf]; [left; exact Ef | ].
    destruct (Req_dec_T (Range p + R_e) 0) as [Er | Nr]; [right; exact Er | ].
    destruct (geometry_ok p Nf Nr) as [g Hg]. rewrite Hg in H. discriminate H.
  - intros H. destruct (Req_dec_T (f p) 0) as [Ef | Nf].
    + unfold geometry. rewrite Ef, truediv_zero. reflexivity.
    + destruct H as [Ef | Er]; [contradiction | ].
      unfold geometry. rewrite (truediv_ok _ _ Nf). simpl.
      rewrite Er, truediv_zero. reflexivity.
  - intros g Hg Hneg. apply geometry_inv in Hg.
    destruct Hg as (_ & _ & _ & _ & _ & _ & ->).
    rewrite np_sqrt_neg; [reflexivity | ].
    unfold Rdiv.
    assert (/ (Range p + R_e) < 0) by (apply Rinv_lt_0_compat; exact Hneg).
    nra.
  - intros g Hg Hpos _. apply geometry_inv in Hg.
    destruct Hg as (_ & _ & _ & _ & _ & _ & ->).
    rewrite np_sqrt_nonneg; [simpl; eexists; reflexivity | ].
    apply Rlt_le, Rdiv_lt_0_compat; lra.
Qed.

Lemma geometry_errors_witness :
  geometry (set_f (unit_conversion defaults) 0) = Raise ZeroDivisionError /\
  exists g s, geometry (unit_conversion defaults) = Ok g /\
    pix_smear g = Some s.
Proof.
  split.
  - apply (geometry_errors (set_f (unit_conversion defaults) 0)).
    + constructor; simpl; try lra; lia.
    + left. reflexivity.
  - destruct (geometry_ok (unit_conversion defaults)) as [g Hg];
      [simpl; lra | unfold R_e; simpl; lra | ].
    destruct (geometry_errors (unit_conversion defaults)
                geometry_range_defaults) as (_ & _ & Hfin).
    destruct (Hfin g Hg) as [s Hs];
      [unfold R_e; simpl; lra | simpl; lra | ].
    exists g, s. split; [exact Hg | exact Hs].
Defined.

(** X7: for a pixel pitch and a focal length from 1e-9 to 1e3 m the pixel
    field of view lies strictly between 0 and 180 degrees. *)
Theorem iFOV_px_range (p : Params) (g : Geometry) :
  1e-9 <= D p <= 1e3 -> 1e-9 <= f p <= 1e3 -> geometry p = Ok g ->
  0 < iFOV_px g < 180.
Proof.
  intros HD Hf Hg. apply geometry_inv in Hg.
  destruct Hg as (_ & _ & _ & _ & _ & -> & _).
  set (q := 0.5 * D p / f p).
  assert (Hq : 0 < q) by (unfold q; apply Rdiv_lt_0_compat; lra).
  pose proof PI_RGT_0 as Hpi.
  pose proof (atan_bound q) as [_ Hub].
  pose proof (atan_increasing 0 q Hq) as Hlb. rewrite atan_0 in Hlb.
  assert (Hip : 0 < / PI) by (apply Rinv_0_lt_compat; exact Hpi).
  unfold rad2deg, Rdiv. split.
  - apply Rmult_lt_0_compat; [lra | exact Hip].
  - apply Rmult_lt_reg_r with PI; [exact Hpi | ].
    rewrite Rmult_assoc, Rinv_l by lra. unfold Rdiv in Hub. lra.
Qed.

Lemma iFOV_px_range_witness :
  exists g, geometry (unit_conversion defaults) = Ok g /\ 0 < iFOV_px g < 180.
Proof.
  destruct (geometry_ok (unit_conversion defaults)) as [g Hg];
    [simpl; lra | unfold R_e; simpl; lra | ].
  exists g. split; [exact Hg | ].
  apply (iFOV_px_range (unit_conversion defaults) g);
    [simpl; lra | simpl; lra | exact Hg].
Defined.

Lemma pix_smear_finite (p : Params) (g : Geometry) :
  0 < Range p + R_e -> geometry p = Ok g ->
  pix_smear g = Some (t p * sqrt (398600000.5 / (Range p + R_e)) * 1000) /\
  0 < sqrt (398600000.5 / (Range p + R_e)).
Proof.
  intros Hr Hg. apply geometry_inv in Hg.
  destruct Hg as (_ & _ & _ & _ & _ & _ & ->).
  assert (Hq : 0 < 398600000.5 / (Range p + R_e))
    by (apply Rdiv_lt_0_compat; lra).
  rewrite np_sqrt_nonneg by lra. simpl.
  split; [reflexivity | apply sqrt_lt_R0; exact Hq].
Qed.

(** X9: for a pixel pitch and diameters within 1e100 m, pixel counts within
    1e18, an exposure time from 1e-100 to 1e100 s and range + Earth radius
    of at least 1 m, a range that is not smaller (up to 1e100 m) gives a
    pixel smear that is finite, positive and not larger; the cell completes
    on the changed range. *)
Theorem pix_smear_monotone (p : Params) (g : Geometry) (r : R) :
  geometry_range p ->
  1e-100 <= t p <= 1e100 -> 1 <= Range p + R_e -> Range p <= r <= 1e100 ->
  geometry p = Ok g ->
  exists g' s s', geometry (set_Range p r) = Ok g' /\
    pix_smear g = Some s /\ pix_smear g' = Some s' /\ 0 < s' <= s.
Proof.
  intros _ Ht Hr Hrr Hg. pose proof Hg as Hi. apply geometry_inv in Hi.
  destruct Hi as (Hf & _).
  destruct (pix_smear_finite p g) as [Hs Hpos]; [lra | exact Hg | ].
  destruct (geometry_ok (set_Range p r)) as [g' Hg'];
    [exact Hf | simpl; lra | ].
  destruct (pix_smear_finite (set_Range p r) g') as [Hs' Hpos'];
    [simpl; lra | exact Hg' | ].
  simpl in Hs', Hpos'. do 3 eexists.
  split; [exact Hg' | ]. split; [exact Hs | ]. split; [exact Hs' | ].
  set (q := sqrt (398600000.5 / (Range p + R_e))) in *.
  set (q' := sqrt (398600000.5 / (r + R_e))) in *.
  assert (Hqq : q' <= q).
  { apply sqrt_le_1_alt. unfold Rdiv. apply Rmult_le_compat_l; [lra | ].
    apply Rinv_le_contravar; lra. }
  split.
  - repeat apply Rmult_lt_0_compat; lra.
  - apply Rmult_le_compat_r; [lra | ].
    apply Rmult_le_compat_l; [lra | exact Hqq].
Qed.

Lemma pix_smear_monotone_witness :
  exists g g' s s',
    geometry (unit_conversion defaults) = Ok g /\
    geometry (set_Range (unit_conversion defaults) 800e3) = Ok g' /\
    pix_smear g = Some s /\ pix_smear g' = Some s' /\ 0 < s' <= s.
Proof.
  destruct (geometry_ok (unit_conversion defaults)) as [g Hg];
    [simpl; lra | unfold R_e; simpl; lra | ].
  destruct (pix_smear_monotone (unit_conversion defaults) g 800e3)
    as (g' & s & s' & Hs);
    [exact geometry_range_defaults | simpl; lra | unfold R_e; simpl; lra
    | simpl; lra | exact Hg | ].
  exists g, g', s, s'. split; [exact Hg | exact Hs].
Defined.

(** ** The SNR *)

Lemma noise_var_ge_25 (te n r : R) : 0 <= n -> 25 <= noise_var te n r.
Proof.
  intros Hn. unfold noise_var.
  assert (0 <= (100 * te) ^ 2) by apply pow2_ge_0.
  assert (0 <= (0.0005 * n) ^ 2) by apply pow2_ge_0.
  assert (0 <= (r ^ 2) ^ 2) by apply pow2_ge_0.
  lra.
Qed.

Lemma run_snr (h c : R) (p : Params) (out : Output) :
  run h c p = Ok out -> 0 <= n_ev (sig out) ->
  snr out
  = Some (n_ev (sig out)
          / sqrt (noise_var (t p) (n_ev (sig out)) (n_r (noi out)))).
Proof.
  intros H Hne.
  destruct (run_downstream _ _ _ _ H) as (_ & Hnoi & Hsnr).
  pose proof H as Hi. apply run_inv in Hi. destruct Hi as (_ & _ & _ & Hn & _).
  assert (Hsh : n_sh (noi out) = Some (sqrt (n_ev (sig out)))).
  { rewrite Hnoi. simpl. apply np_sqrt_nonneg. exact Hne. }
  rewrite Hsnr, (snr_cell_finite _ _ _ _ Hn Hsh). do 3 f_equal.
  unfold spec_noise_sum, noise_var. rewrite pow2_sqrt by exact Hne.
  rewrite Hnoi. simpl. ring.
Qed.

Lemma run_snr_nan (h c : R) (p : Params) (out : Output) :
  run h c p = Ok out -> n_ev (sig out) < 0 -> snr out = None.
Proof.
  intros H Hne. destruct (run_downstream _ _ _ _ H) as (_ & Hnoi & ->).
  apply snr_cell_nan. rewrite Hnoi. simpl. apply np_sqrt_neg. exact Hne.
Qed.

Lemma sqrt_gt (a S : R) : 0 <= a -> a ^ 2 < S -> a < sqrt S.
Proof.
  intros Ha HS. rewrite <- (sqrt_pow2 a Ha). apply sqrt_lt_1_alt.
  split; [apply pow2_ge_0 | exact HS].
Qed.

(** X13: with the other inputs moderate, an obscuration diameter above the
    aperture diameter by one part in a million or more (up to 1e6 mm)
    raises nothing: the run completes with a negative n_ev, and its shot
    noise and its SNR are not numbers. *)
Theorem oversized_obscuration (h : R) (p : Params) (d : R) :
  planck_range h -> moderate p -> 1.000001 * D_ap p <= d <= 1e6 ->
  exists out, run h scipy_c (set_D_obs p d) = Ok out /\
    n_ev (sig out) < 0 /\ n_sh (noi out) = None /\ snr out = None.
Proof.
  intros Hh Hm Hd. pose proof (planck_range_pos h Hh) as Hh0.
  pose proof (moderate_valid p Hm) as Hv.
  assert (HL : 0 < L_typ p) by (destruct Hm; lra).
  pose proof (valid_divisors_nonzero h scipy_c p Hh0 scipy_c_pos Hv) as Hdiv.
  destruct (run_ok h scipy_c (set_D_obs p d) Hdiv) as [out H].
  exists out. split; [exact H | ].
  assert (H1 : 0 < n_ev_closed h scipy_c
                     (unit_conversion (set_eta (set_D_obs p 0) 1))).
  { apply n_ev_closed_pos; try assumption;
      [exact scipy_c_pos | apply valid_si, valid_unit_efficiency, Hv
      | simpl; lra]. }
  pose proof Hv as [].
  assert (Hap : 0 < D_ap p ^ 2) by (apply pow_lt; assumption).
  assert (E : n_ev (sig out) * D_ap p ^ 2
              = n_ev_closed h scipy_c
                  (unit_conversion (set_eta (set_D_obs p 0) 1))
                * eta p * (D_ap p ^ 2 - d ^ 2)).
  { rewrite (run_n_ev _ _ _ _ H). unfold n_ev_closed, scipy_c. simpl.
    field. repeat split; lra. }
  set (n := n_ev (sig out)) in *.
  set (n1 := n_ev_closed h scipy_c
               (unit_conversion (set_eta (set_D_obs p 0) 1))) in *.
  assert (Hneg : n < 0).
  { assert (Hsq : D_ap p ^ 2 < d ^ 2) by nra.
    assert (Hn1e : 0 < n1 * eta p) by (apply Rmult_lt_0_compat; lra).
    assert (Hprod : n * D_ap p ^ 2 < 0) by (rewrite E; nra).
    nra. }
  split; [exact Hneg | ].
  split; [ | exact (run_snr_nan _ _ _ _ H Hneg)].
  destruct (run_downstream _ _ _ _ H) as (_ & Hnoi & _).
  rewrite Hnoi. simpl. apply np_sqrt_neg. exact Hneg.
Qed.

Lemma oversized_obscuration_witness :
  exists out, run scipy_h scipy_c (set_D_obs defaults 12) = Ok out /\
    n_ev (sig out) < 0 /\ n_sh (noi out) = None /\ snr out = None.
Proof.
  apply (oversized_obscuration scipy_h defaults 12).
  - exact scipy_h_range.
  - exact moderate_defaults.
  - simpl. lra.
Defined.

(** X14: a completed run whose SNR is a number has an SNR of at most
    2000.001: the fixed-pattern noise, 0.0005 n_ev, caps it at 2000. *)
Theorem snr_ceiling (h c : R) (p : Params) (out : Output) (v : R) :
  run h c p = Ok out -> snr out = Some v -> v <= 2000.001.
Proof.
  intros H Hv.
  destruct (Rlt_le_dec (n_ev (sig out)) 0) as [Hneg | Hnn].
  { rewrite (run_snr_nan _ _ _ _ H Hneg) in Hv. discriminate Hv. }
  rewrite (run_snr _ _ _ _ H Hnn) in Hv. injection Hv as <-.
  set (n := n_ev (sig out)) in *. set (r := n_r (noi out)).
  pose proof (noise_var_ge_25 (t p) n r Hnn) as HS.
  assert (Hd : 0 <= (100 * t p) ^ 2) by apply pow2_ge_0.
  assert (Hr4 : 0 <= (r ^ 2) ^ 2) by apply pow2_ge_0.
  assert (HSdef : noise_var (t p) n r
                  = n + (100 * t p) ^ 2 + 5 ^ 2 + (0.0005 * n) ^ 2
                    + (r ^ 2) ^ 2)
    by reflexivity.
  set (S := noise_var (t p) n r) in *.
  assert (Hs : 0 < sqrt S) by (apply sqrt_lt_R0; lra).
  assert (Hvs : n / sqrt S * sqrt S = n) by (field; lra).
  assert (G : 0.0005 * n < sqrt S) by (apply sqrt_gt; lra).
  apply Rlt_le, Rmult_lt_reg_r with (sqrt S); [exact Hs | ].
  rewrite Hvs. nra.
Qed.

Lemma snr_ceiling_witness :
  exists out v, run scipy_h scipy_c defaults = Ok out /\
    snr out = Some v /\ v <= 2000.001.
Proof.
  destruct (run_valid _ _ _ scipy_h_pos scipy_c_pos valid_defaults)
    as (out & H & _).
  destruct (snr out) as [v | ] eqn:Hv.
  - exists out, v. split; [exact H | ]. split; [exact Hv | ].
    exact (snr_ceiling scipy_h scipy_c defaults out v H Hv).
  - exfalso.
    assert (Hnn : 0 <= n_ev (sig out)).
    { rewrite (run_n_ev _ _ _ _ H). apply Rlt_le, n_ev_closed_pos;
        [exact scipy_h_pos | exact scipy_c_pos
        | apply valid_si, valid_defaults | simpl; lra]. }
    rewrite (run_snr _ _ _ _ H Hnn) in Hv. discriminate Hv.
Defined.
